(** * Stroop Lab: trial engine, session state and result aggregation

    A shallow embedding of the TypeScript sources of the Stroop experiment
    ([src/app/experiment/page.tsx], the results page with [calculateSummary],
    its mount effect and its statistics cards, and
    [src/tests/utils/test-helpers.ts] with its catalogue tables, mock data,
    expected statistics and card reader) together with the properties stated
    about them.

    Conventions.
    - A JavaScript [number] is kept abstract behind the class [JSNumber].
      Two instances are given: [number], where finite values are exact
      rationals and the exceptional values [NaN] and the two infinities are
      explicit (rounding of binary64 is not part of this instance), and
      [float], the binary64 numbers themselves, on which the code is run on
      concrete inputs.
    - React state is a record; an event handler is a function from the
      state before the event to the state after it.  [setTimeout] callbacks
      are kept in a queue of pending timers and run by a separate step. *)

From Stdlib Require Import QArith Qcanon Qround ZArith Lia Lqa String Ascii Floats.
From Stdlib Require Import Decimal DecimalString DecimalNat.
From stdpp Require Import base numbers list strings.

#[local] Open Scope Qc_scope.
#[local] Open Scope nat_scope.

(** ** Stimulus catalogue *)

(** [ColorKey]: the three categories, used both as printed word and as
    response. *)
Inductive ColorKey : Type := red | green | yellow.

#[global] Instance ColorKey_eq_dec : EqDecision ColorKey.
Proof. solve_decision. Defined.

(** [COLORS] of test-helpers.ts: the canonical display attribute of each
    category. *)
Definition COLORS (k : ColorKey) : string :=
  match k with
  | red => "#f43f5e"
  | green => "#34d399"
  | yellow => "#fbbf24"
  end.

(** [WORDS] of test-helpers.ts. *)
Definition WORDS : list ColorKey := [red; green; yellow].

(** ** JavaScript numbers *)

Class JSNumber (N : Type) : Type := {
  of_nat : nat -> N;
  add : N -> N -> N;
  sub : N -> N -> N;
  mul : N -> N -> N;
  div : N -> N -> N
}.

(** Finite values as exact rationals, plus the exceptional values. *)
Inductive number : Type :=
| Num (q : Qc)
| PInf
| NInf
| NaN.

Definition number_neg (x : number) : number :=
  match x with
  | Num q => Num (- q)%Qc
  | PInf => NInf
  | NInf => PInf
  | NaN => NaN
  end.

Definition number_add (x y : number) : number :=
  match x, y with
  | NaN, _ | _, NaN => NaN
  | Num p, Num q => Num (p + q)%Qc
  | PInf, NInf | NInf, PInf => NaN
  | PInf, _ | _, PInf => PInf
  | NInf, _ | _, NInf => NInf
  end.

Definition number_sub (x y : number) : number := number_add x (number_neg y).

(** The infinity with the sign of a comparison against zero; [NaN] for
    zero itself (as in [Infinity * 0] and [0 / 0]). *)
Definition signed_inf (c : comparison) : number :=
  match c with
  | Gt => PInf
  | Lt => NInf
  | Eq => NaN
  end.

Definition number_mul (x y : number) : number :=
  match x, y with
  | NaN, _ | _, NaN => NaN
  | Num p, Num q => Num (p * q)%Qc
  | PInf, Num q | Num q, PInf => signed_inf (q ?= 0)%Qc
  | NInf, Num q | Num q, NInf => signed_inf (0 ?= q)%Qc
  | PInf, PInf | NInf, NInf => PInf
  | PInf, NInf | NInf, PInf => NInf
  end.

(** Division by zero is not an error in JavaScript: [0 / 0] is [NaN] and
    [x / 0] is an infinity.  (The sign of a zero is not represented.) *)
Definition number_div (x y : number) : number :=
  match x, y with
  | NaN, _ | _, NaN => NaN
  | Num p, Num q =>
      match (q ?= 0)%Qc with
      | Eq => signed_inf (p ?= 0)%Qc
      | _ => Num (p / q)%Qc
      end
  | Num _, (PInf | NInf) => Num 0%Qc
  | PInf, Num q => match (q ?= 0)%Qc with Lt => NInf | _ => PInf end
  | NInf, Num q => match (q ?= 0)%Qc with Lt => PInf | _ => NInf end
  | (PInf | NInf), (PInf | NInf) => NaN
  end.

Definition number_of_Z (z : Z) : number := Num (Qc_of_Z z).

#[global] Instance number_JSNumber : JSNumber number := {|
  of_nat n := number_of_Z (Z.of_nat n);
  add := number_add;
  sub := number_sub;
  mul := number_mul;
  div := number_div
|}.

(** Binary64, the representation JavaScript really uses. *)
Definition float_of_Z (z : Z) : float :=
  match z with
  | Zneg p => PrimFloat.opp (PrimFloat.of_uint63 (Uint63.of_Z (Zpos p)))
  | _ => PrimFloat.of_uint63 (Uint63.of_Z z)
  end.

#[global] Instance float_JSNumber : JSNumber float := {|
  of_nat n := float_of_Z (Z.of_nat n);
  add := PrimFloat.add;
  sub := PrimFloat.sub;
  mul := PrimFloat.mul;
  div := PrimFloat.div
|}.

Definition is_finite (x : number) : Prop :=
  match x with
  | Num _ => True
  | _ => False
  end.

(** ** Types of [@/types] *)

Record Trial : Type := mkTrial {
  id : nat;
  wordText : ColorKey;
  fontColor : string;
  isCongruent : bool
}.

Section Aggregator.
Context {N : Type} `{JSNumber N}.

Record TrialResult : Type := mkTrialResult {
  session_id : string;
  word_text : ColorKey;
  font_color : string;
  is_congruent : bool;
  reaction_time_ms : N;
  user_response : ColorKey;
  is_correct : bool
}.

Record ResultsSummary : Type := mkResultsSummary {
  congruentAvg : N;
  incongruentAvg : N;
  stroopEffect : N;
  totalTrials : nat;
  correctTrials : nat;
  accuracy : N
}.

(** Modelled from the spec: [calculateAverage] of [@/lib/timing] is not
    among the sources.  It is the arithmetic mean, the sum of the values
    divided by their number, and [0] for an empty array ("if the filtered
    subset for a mean is empty, the mean is defined as 0 (not NaN)"). *)
Definition calculateAverage (times : list N) : N :=
  match times with
  | [] => of_nat 0
  | _ => div (foldl add (of_nat 0) times) (of_nat (length times))
  end.

(** [calculateSummary] of the results page. *)
Definition calculateSummary (results : list TrialResult) : ResultsSummary :=
  let congruentTimes :=
    map reaction_time_ms
      (List.filter (fun r => is_congruent r && is_correct r) results) in
  let incongruentTimes :=
    map reaction_time_ms
      (List.filter (fun r => negb (is_congruent r) && is_correct r) results) in
  let congruentAvg := calculateAverage congruentTimes in
  let incongruentAvg := calculateAverage incongruentTimes in
  let correctTrials := length (List.filter (fun r => is_correct r) results) in
  {| congruentAvg := congruentAvg;
     incongruentAvg := incongruentAvg;
     stroopEffect := sub incongruentAvg congruentAvg;
     totalTrials := length results;
     correctTrials := correctTrials;
     accuracy := mul (div (of_nat correctTrials) (of_nat (length results)))
                     (of_nat 100) |}.
End Aggregator.

Arguments TrialResult N : clear implicits.
Arguments ResultsSummary N : clear implicits.

(** ** [@/lib/timing] *)

(** [Math.round]: the nearest integer, halves upwards. *)
Definition Math_round (x : Qc) : Z := Qfloor (x + Q2Qc (1 # 2))%Qc.

(** Modelled from the spec: [calculateReactionTime] of [@/lib/timing] is
    not among the sources.  [now] is the reading of the monotonic clock
    ([getTimestamp]) taken inside the call.  The elapsed time "rounds to the
    nearest millisecond" and "must be clamped to zero rather than propagate
    a negative duration". *)
Definition calculateReactionTime (now startTime : Qc) : Z :=
  Z.max 0 (Math_round (now - startTime)%Qc).

(** ** [@/lib/experiment] *)

(** [TOTAL_TRIALS] of page.tsx. *)
Definition TOTAL_TRIALS : nat := 20.

(** Modelled from the spec: the lookup inside [isCorrectResponse], "the
    category whose canonical display attribute equals" the given colour. *)
Definition categoryOfColor (c : string) : option ColorKey :=
  List.find (fun k => String.eqb (COLORS k) c) WORDS.

(** Modelled from the spec: [isCorrectResponse] of [@/lib/experiment] is
    not among the sources.  "A response is correct iff response == <category
    whose canonical display attribute equals trial.fontColor>." *)
Definition isCorrectResponse (trial : Trial) (response : ColorKey) : bool :=
  match categoryOfColor (fontColor trial) with
  | Some c => bool_decide (response = c)
  | None => false
  end.

(** Modelled from the spec: the pseudo-random choices of [generateTrials].
    [rng k] is what the [k]-th call of [Math.random] yields, and
    [draw rng k n] the index [Math.floor(Math.random() * n)] obtained from
    it. *)
Definition draw (rng : nat -> nat) (k n : nat) : nat := rng k mod n.

#[global] Instance ColorKey_inhabited : Inhabited ColorKey := populate red.

(** Modelled from the spec: the word of the [i]-th trial of a congruency
    group, cycling through the catalogue so that the categories are
    "balanced as evenly as possible". *)
Definition nth_word (i : nat) : ColorKey := WORDS !!! (i mod length WORDS).

(** Exchange of the elements at two indices of an array. *)
Definition swap {A} (l : list A) (i j : nat) : list A :=
  match l !! i, l !! j with
  | Some x, Some y => <[i:=y]> (<[j:=x]> l)
  | _, _ => l
  end.

(** Modelled from the spec: the shuffle of [generateTrials], as
    Fisher-Yates: for [i] from the last index down to [1], exchange the
    element at [i] with the one at a drawn index in [0..i]. *)
Fixpoint shuffle_loop {A} (rng : nat -> nat) (k i : nat) (l : list A) : list A :=
  match i with
  | O => l
  | S i' => shuffle_loop rng (S k) i' (swap l i (draw rng k (S i)))
  end.

Definition shuffle {A} (rng : nat -> nat) (k : nat) (l : list A) : list A :=
  shuffle_loop rng k (length l - 1) l.

(** Modelled from the spec: the [i]-th congruent trial, whose font colour
    is the canonical colour of its word. *)
Definition congruentTrial (i : nat) : Trial :=
  let word := nth_word i in
  {| id := i; wordText := word; fontColor := COLORS word; isCongruent := true |}.

(** Modelled from the spec: the [i]-th incongruent trial, whose font colour
    is "chosen pseudo-randomly among the remaining non-matching options". *)
Definition incongruentTrial (rng : nat -> nat) (i : nat) : Trial :=
  let word := nth_word i in
  let others := List.filter (fun k => negb (bool_decide (k = word))) WORDS in
  let color := others !!! draw rng i (length others) in
  {| id := TOTAL_TRIALS / 2 + i; wordText := word;
     fontColor := COLORS color; isCongruent := false |}.

(** Modelled from the spec: [generateTrials] of [@/lib/experiment] is not
    among the sources.  Half of the [TOTAL_TRIALS] trials are congruent and
    half incongruent; within each half the words cycle through the
    catalogue; an incongruent trial takes one of the two non-matching
    colours at random; every trial has its own identifier; the sequence is
    shuffled. *)
Definition generateTrials (rng : nat -> nat) : list Trial :=
  let half := TOTAL_TRIALS / 2 in
  shuffle rng half
    (map congruentTrial (seq 0 half) ++ map (incongruentTrial rng) (seq 0 half)).

(** ** The experiment page *)

(** Callbacks handed to [setTimeout(..., INTER_TRIAL_DELAY)]. *)
Inductive Timer : Type :=
| AdvanceTrial      (* setCurrentIndex(prev => prev + 1); setIsWaiting(false) *)
| NavigateResults.  (* router.push('/results') *)

Inductive Route : Type := ExperimentRoute | ResultsRoute | HomeRoute.

Record PageState : Type := mkPageState {
  sessionId : option string;
  trials : list Trial;
  currentIndex : nat;
  isWaiting : bool;
  results : list (TrialResult number);
  startTime : Qc;                                   (* startTimeRef.current *)
  stroop_session_id : option string;                (* sessionStorage *)
  stroop_results : option (list (TrialResult number)); (* sessionStorage *)
  inserted : list (TrialResult number);             (* rows sent to the remote sink *)
  timers : list Timer;                              (* pending timeouts, oldest first *)
  route : Route
}.

(** Truthiness of a [string | null]: [null] and the empty string are falsy. *)
Definition truthy (o : option string) : bool :=
  match o with
  | Some s => negb (String.eqb s "")
  | None => false
  end.

(** The state of a freshly mounted page: the [useState] initial values. *)
Definition initial (stored : option string) : PageState :=
  {| sessionId := None; trials := []; currentIndex := 0; isWaiting := false;
     results := []; startTime := 0%Qc;
     stroop_session_id := stored; stroop_results := None;
     inserted := []; timers := []; route := ExperimentRoute |}.

(** The second [useEffect]: after a render in which [currentIndex],
    [trials.length] or [isWaiting] changed, the onset timestamp is taken if
    a trial is on display. *)
Definition onsetEffect (now : Qc) (old new : PageState) : PageState :=
  let changed :=
    negb (currentIndex old =? currentIndex new)
    || negb (length (trials old) =? length (trials new))
    || negb (eqb (isWaiting old) (isWaiting new)) in
  if changed
     && (0 <? length (trials new))
     && (currentIndex new <? length (trials new))
     && negb (isWaiting new)
  then
    {| sessionId := sessionId new; trials := trials new;
       currentIndex := currentIndex new; isWaiting := isWaiting new;
       results := results new; startTime := now;
       stroop_session_id := stroop_session_id new;
       stroop_results := stroop_results new; inserted := inserted new;
       timers := timers new; route := route new |}
  else new.

(** The first [useEffect], run when the page is mounted. *)
Definition mount (rng : nat -> nat) (now : Qc) (s : PageState) : PageState :=
  if truthy (stroop_session_id s) then
    onsetEffect now s
      {| sessionId := stroop_session_id s; trials := generateTrials rng;
         currentIndex := currentIndex s; isWaiting := isWaiting s;
         results := results s; startTime := startTime s;
         stroop_session_id := stroop_session_id s;
         stroop_results := stroop_results s; inserted := inserted s;
         timers := timers s; route := route s |}
  else
    {| sessionId := sessionId s; trials := trials s;
       currentIndex := currentIndex s; isWaiting := isWaiting s;
       results := results s; startTime := startTime s;
       stroop_session_id := stroop_session_id s;
       stroop_results := stroop_results s; inserted := inserted s;
       timers := timers s; route := HomeRoute |}.

Definition handleRestart (newSessionId : string) (rng : nat -> nat) (now : Qc)
    (s : PageState) : PageState :=
  onsetEffect now s
    {| sessionId := Some newSessionId; trials := generateTrials rng;
       currentIndex := 0; isWaiting := false;
       results := []; startTime := startTime s;
       stroop_session_id := Some newSessionId;
       stroop_results := stroop_results s; inserted := inserted s;
       timers := timers s; route := route s |}.

Definition handleResponse (response : ColorKey) (now : Qc) (s : PageState)
    : PageState :=
  if isWaiting s || negb (truthy (sessionId s))
     || (length (trials s) <=? currentIndex s)
  then s
  else
    match sessionId s, trials s !! currentIndex s with
    | Some sid, Some currentTrial =>
        let reactionTime := calculateReactionTime now (startTime s) in
        let correct := isCorrectResponse currentTrial response in
        let result :=
          {| session_id := sid;
             word_text := wordText currentTrial;
             font_color := fontColor currentTrial;
             is_congruent := isCongruent currentTrial;
             reaction_time_ms := number_of_Z reactionTime;
             user_response := response;
             is_correct := correct |} in
        let newResults := results s ++ [result] in
        if TOTAL_TRIALS <=? currentIndex s + 1 then
          {| sessionId := sessionId s; trials := trials s;
             currentIndex := currentIndex s; isWaiting := true;
             results := newResults; startTime := startTime s;
             stroop_session_id := stroop_session_id s;
             stroop_results := Some newResults;
             inserted := inserted s ++ [result];
             timers := timers s ++ [NavigateResults]; route := route s |}
        else
          {| sessionId := sessionId s; trials := trials s;
             currentIndex := currentIndex s; isWaiting := true;
             results := newResults; startTime := startTime s;
             stroop_session_id := stroop_session_id s;
             stroop_results := stroop_results s;
             inserted := inserted s ++ [result];
             timers := timers s ++ [AdvanceTrial]; route := route s |}
    | _, _ => s   (* excluded by the guard above *)
    end.

(** The oldest pending timeout expires and its callback runs. *)
Definition timerFires (now : Qc) (s : PageState) : PageState :=
  match timers s with
  | [] => s
  | AdvanceTrial :: rest =>
      onsetEffect now s
        {| sessionId := sessionId s; trials := trials s;
           currentIndex := currentIndex s + 1; isWaiting := false;
           results := results s; startTime := startTime s;
           stroop_session_id := stroop_session_id s;
           stroop_results := stroop_results s; inserted := inserted s;
           timers := rest; route := route s |}
  | NavigateResults :: rest =>
      {| sessionId := sessionId s; trials := trials s;
         currentIndex := currentIndex s; isWaiting := isWaiting s;
         results := results s; startTime := startTime s;
         stroop_session_id := stroop_session_id s;
         stroop_results := stroop_results s; inserted := inserted s;
         timers := rest; route := ResultsRoute |}
  end.

Inductive Event : Type :=
| Mount (rng : nat -> nat) (now : Qc)
| Response (response : ColorKey) (now : Qc)
| Restart (newSessionId : string) (rng : nat -> nat) (now : Qc)
| TimerFires (now : Qc).

Definition step (s : PageState) (e : Event) : PageState :=
  match e with
  | Mount rng now => mount rng now s
  | Response r now => handleResponse r now s
  | Restart sid rng now => handleRestart sid rng now s
  | TimerFires now => timerFires now s
  end.

Definition run (s : PageState) (events : list Event) : PageState :=
  foldl step s events.

(** ** The session of the specification, read off the page state *)

Inductive Phase : Type := NotStarted | InProgress | Completed.

#[global] Instance Phase_eq_dec : EqDecision Phase.
Proof. solve_decision. Defined.

(** [NotStarted]: no session or no trials yet (the page renders "Loading").
    [Completed]: every trial slot is used up, or the response to the last
    trial has been recorded (the branch [currentIndex + 1 >= TOTAL_TRIALS]
    of [handleResponse] leaves [isWaiting] set).  [InProgress] otherwise. *)
Definition phase (s : PageState) : Phase :=
  if negb (truthy (sessionId s)) || (length (trials s) =? 0) then NotStarted
  else if (length (trials s) <=? currentIndex s)
          || (isWaiting s && (TOTAL_TRIALS <=? currentIndex s + 1))
  then Completed
  else InProgress.

Definition is_advance (t : Timer) : bool :=
  match t with
  | AdvanceTrial => true
  | NavigateResults => false
  end.

(** No restart of the event list is issued while an inter-trial timeout
    is still pending. *)
Fixpoint restarts_after_timers (s : PageState) (events : list Event) : bool :=
  match events with
  | [] => true
  | e :: events' =>
      match e with
      | Restart _ _ _ => negb (existsb is_advance (timers s))
      | _ => true
      end && restarts_after_timers (step s e) events'
  end.

(** ** The aggregates as the specification words them *)

Definition finite_part (x : number) : Qc :=
  match x with
  | Num q => q
  | _ => 0%Qc
  end.

Definition Qc_of_nat (n : nat) : Qc := Qc_of_Z (Z.of_nat n).

(** The number of results selected by [P], counted in one pass. *)
Fixpoint spec_count (P : TrialResult number -> bool)
    (rs : list (TrialResult number)) : nat :=
  match rs with
  | [] => 0
  | r :: rs' => if P r then S (spec_count P rs') else spec_count P rs'
  end.

(** The sum of the reaction times of the results selected by [P]. *)
Fixpoint spec_sum (P : TrialResult number -> bool)
    (rs : list (TrialResult number)) : Qc :=
  match rs with
  | [] => 0%Qc
  | r :: rs' =>
      if P r then (finite_part (reaction_time_ms r) + spec_sum P rs')%Qc
      else spec_sum P rs'
  end.

(** "Arithmetic mean of reaction_time_ms over results where ..."; "if the
    filtered subset for a mean is empty, the mean is defined as 0". *)
Definition spec_mean (P : TrialResult number -> bool)
    (rs : list (TrialResult number)) : Qc :=
  match spec_count P rs with
  | O => 0%Qc
  | S _ as n => (spec_sum P rs / Qc_of_nat n)%Qc
  end.

Definition congruent_correct (r : TrialResult number) : bool :=
  is_congruent r && is_correct r.

Definition incongruent_correct (r : TrialResult number) : bool :=
  negb (is_congruent r) && is_correct r.

Definition finite_times (rs : list (TrialResult number)) : Prop :=
  Forall (fun r => is_finite (reaction_time_ms r)) rs.

(** A result with the given congruency, correctness and reaction time, for
    the worked examples. *)
Definition result_of {N} (c ok : bool) (rt : N) : TrialResult N :=
  {| session_id := "s"; word_text := red;
     font_color := if c then COLORS red else COLORS green;
     is_congruent := c; reaction_time_ms := rt;
     user_response := if ok then (if c then red else green) else yellow;
     is_correct := ok |}.

(** What links the result list and the index: the results are one ahead of
    the index exactly during the inter-trial wait, and an [AdvanceTrial]
    timeout is pending only then. *)
Definition session_invariant (s : PageState) : Prop :=
  length (results s) = currentIndex s + (if isWaiting s then 1 else 0)
  /\ length (List.filter is_advance (timers s)) <= (if isWaiting s then 1 else 0).

(** What holds of every reachable state, restarts during the wait included:
    the results are never more than one ahead of the index, and the trial
    list is empty or complete. *)
Definition reachable_invariant (s : PageState) : Prop :=
  length (results s) <= currentIndex s + (if isWaiting s then 1 else 0)
  /\ (length (trials s) = 0 \/ length (trials s) = TOTAL_TRIALS).

(** ** Worked inputs *)

(** The reaction times of the first worked scenario. *)
Definition scenario_times : list Z :=
  [400; 420; 440; 460; 480; 500; 520; 540; 560; 580]%Z.

(** A fixed stream of pseudo-random choices and some event sequences on a
    page whose session identifier is already stored. *)
Definition fixed_choices : nat -> nat := fun _ => 0.

Definition started : PageState :=
  run (initial (Some "session-1")) [Mount fixed_choices 0%Qc].

Definition one_response : list Event := [Response red (Qc_of_Z 700)].

Definition two_trials_then_restart : list Event :=
  [Response green (Qc_of_Z 700); TimerFires (Qc_of_Z 1200);
   Response red (Qc_of_Z 1900); TimerFires (Qc_of_Z 2400);
   Restart "session-2" fixed_choices (Qc_of_Z 3000);
   Response yellow (Qc_of_Z 3600)].

Definition restart_during_delay : list Event :=
  [Response green (Qc_of_Z 700);
   Restart "session-2" fixed_choices (Qc_of_Z 800);
   TimerFires (Qc_of_Z 1200)].

Definition whole_session : list Event :=
  flat_map (fun k => [Response green (Qc_of_Z (1000 * k + 600));
                      TimerFires (Qc_of_Z (1000 * k + 1100))])
    (map Z.of_nat (seq 0 TOTAL_TRIALS)).

(** ** What the experiment page keeps true of its records *)

(** A recorded result as [handleResponse] builds it: a whole, non-negative
    number of milliseconds, correctness judged by the font colour, and the
    congruency flag of a trial whose flag matches its word and colour. *)
Definition recorded_well (r : TrialResult number) : Prop :=
  (exists z : Z, (0 <= z)%Z /\ reaction_time_ms r = number_of_Z z)
  /\ (is_correct r = true <-> COLORS (user_response r) = font_color r)
  /\ (is_congruent r = true <-> COLORS (word_text r) = font_color r).

Definition trial_well (t : Trial) : Prop :=
  isCongruent t = String.eqb (COLORS (wordText t)) (fontColor t).

(** Holds in every state the page can reach, whatever the events. *)
Definition recorded_invariant (s : PageState) : Prop :=
  length (results s) <= TOTAL_TRIALS
  /\ (exists sent, inserted s = sent ++ results s)
  /\ match sessionId s with
     | Some sid =>
         stroop_session_id s = Some sid
         /\ Forall (fun r => session_id r = sid) (results s)
     | None => results s = []
     end
  /\ Forall recorded_well (results s)
  /\ Forall trial_well (trials s)
  /\ (In NavigateResults (timers s) \/ route s = ResultsRoute ->
      exists rs, stroop_results s = Some rs /\ rs <> []).

(** Holds in the states reached without a restart during the inter-trial
    delay: the index stays inside the trial list and what is stored for the
    results page is a full set of results. *)
Definition paced_invariant (s : PageState) : Prop :=
  currentIndex s < TOTAL_TRIALS
  /\ (existsb is_advance (timers s) = true -> currentIndex s + 1 < TOTAL_TRIALS)
  /\ (forall rs, stroop_results s = Some rs -> length rs = TOTAL_TRIALS).

(** No restart among the events. *)
Definition no_restart (events : list Event) : bool :=
  forallb (fun e => match e with Restart _ _ _ => false | _ => true end) events.

(** The number of response events in a list of events. *)
Definition responses (events : list Event) : nat :=
  length (List.filter (fun e => match e with Response _ _ => true | _ => false end)
            events).

(** The page after a mount that found no session identifier: sent home,
    with nothing loaded, recorded, sent or scheduled. *)
Definition turned_away (s : PageState) : Prop :=
  route s = HomeRoute /\ truthy (sessionId s) = false
  /\ truthy (stroop_session_id s) = false
  /\ trials s = [] /\ results s = [] /\ inserted s = [] /\ timers s = [].

(** What is stored for the results page is a list of well-formed results. *)
Definition stored_well (s : PageState) : Prop :=
  forall rs, stroop_results s = Some rs ->
    Forall recorded_well rs /\ length rs <= TOTAL_TRIALS.

(** ** The results page: what it shows *)

(** [Math.round] on a [number]: [NaN] and the infinities are left as they
    are. *)
Definition number_round (x : number) : number :=
  match x with
  | Num q => number_of_Z (Math_round q)
  | _ => x
  end.

(** The comparison [x > y] of two numbers; it is false when either is
    [NaN]. *)
Definition number_gtb (x y : number) : bool :=
  match x, y with
  | NaN, _ | _, NaN => false
  | Num p, Num q => match (p ?= q)%Qc with Gt => true | _ => false end
  | PInf, PInf | NInf, _ | Num _, PInf => false
  | PInf, (Num _ | NInf) | Num _, NInf => true
  end.

(** The four figures of the statistics grid: each value of the summary goes
    through [Math.round] before it is shown. *)
Record StatCards : Type := mkStatCards {
  congruentCard : number;
  incongruentCard : number;
  effectCard : number;
  accuracyCard : number
}.

Definition statCards (summary : ResultsSummary number) : StatCards :=
  {| congruentCard := number_round (congruentAvg summary);
     incongruentCard := number_round (incongruentAvg summary);
     effectCard := number_round (stroopEffect summary);
     accuracyCard := number_round (accuracy summary) |}.

(** The three wordings of the explanation under the chart. *)
Inductive Interference : Type := Typical | Moderate | QuiteLow.

Definition interference (summary : ResultsSummary number) : Interference :=
  if number_gtb (stroopEffect summary) (of_nat 100) then Typical
  else if number_gtb (stroopEffect summary) (of_nat 50) then Moderate
  else QuiteLow.

(** What reading the stored text gives when the text is there and not
    empty: a result list, or an exception thrown inside the [try] block (by
    [JSON.parse] or by [calculateSummary] on something that is not a result
    list). *)
Inductive Parsed : Type :=
| ParsedResults (rs : list (TrialResult number))
| ParseError.

Record ResultsPage : Type := mkResultsPage {
  summary : option (ResultsSummary number);
  pageSessionId : option string;
  pageRoute : Route
}.

(** The [useEffect] of the results page.  [storedResults] is the item
    [stroop_results] of session storage, given with the outcome of reading
    it; [None] stands for an absent or empty item, which [!storedResults]
    rejects before the session identifier is taken over. *)
Definition resultsPageMount (storedResults : option Parsed)
    (storedSessionId : option string) : ResultsPage :=
  match storedResults with
  | None =>
      {| summary := None; pageSessionId := None; pageRoute := HomeRoute |}
  | Some (ParsedResults rs) =>
      {| summary := Some (calculateSummary rs);
         pageSessionId := storedSessionId; pageRoute := ResultsRoute |}
  | Some ParseError =>
      {| summary := None; pageSessionId := storedSessionId;
         pageRoute := HomeRoute |}
  end.

(** ** [tests/utils/test-helpers.ts] *)

Module TestHelpers.

(** The options of [generateMockResults]; an absent option is [None]. *)
Module Options.
Record t : Type := make {
  congruentMean : option Qc;
  incongruentMean : option Qc;
  congruentVariance : option Qc;
  incongruentVariance : option Qc;
  trialsPerCondition : option nat;
  errorRate : option Qc
}.

(** [{}], the default argument. *)
Definition empty : t :=
  {| congruentMean := None; incongruentMean := None;
     congruentVariance := None; incongruentVariance := None;
     trialsPerCondition := None; errorRate := None |}.
End Options.

(** [WORDS.indexOf(word)]: the first index at which [word] occurs, [-1] when
    it does not occur. *)
Fixpoint indexOf_from (words : list ColorKey) (word : ColorKey) (i : Z) : Z :=
  match words with
  | [] => (-1)%Z
  | w :: words' =>
      if bool_decide (w = word) then i else indexOf_from words' word (i + 1)%Z
  end.

Definition indexOf (word : ColorKey) : Z := indexOf_from WORDS word 0%Z.

(** [WORDS[(WORDS.indexOf(word) + 1) % 3]]. *)
Definition nextWord (word : ColorKey) : ColorKey :=
  WORDS !!! Z.to_nat (Z.rem (indexOf word + 1) 3).

(** [x > y] on two finite numbers. *)
Definition gt (x y : Qc) : bool :=
  match (x ?= y)%Qc with
  | Gt => true
  | _ => false
  end.

(** The body of the first loop; [rand k] is what the [k]-th call of
    [Math.random] yields. *)
Definition congruentResult (rand : nat -> Qc) (sessionId : string)
    (congruentMean congruentVariance errorRate : Qc) (i : nat)
    : TrialResult number :=
  let word := WORDS !!! (i mod length WORDS) in
  let rt :=
    (congruentMean
     + (rand (2 * i)%nat - Q2Qc (1 # 2)) * Qc_of_Z 2 * congruentVariance)%Qc in
  let isCorrect := gt (rand (2 * i + 1)) errorRate in
  {| session_id := sessionId;
     word_text := word;
     font_color := COLORS word;
     is_congruent := true;
     reaction_time_ms := number_of_Z (Math_round rt);
     user_response := if isCorrect then word else nextWord word;
     is_correct := isCorrect |}.

(** The body of the second loop, which goes on drawing where the first
    loop stopped. *)
Definition incongruentResult (rand : nat -> Qc) (sessionId : string)
    (incongruentMean incongruentVariance errorRate : Qc)
    (trialsPerCondition i : nat) : TrialResult number :=
  let word := WORDS !!! (i mod length WORDS) in
  let colorName := nextWord word in
  let rt :=
    (incongruentMean
     + (rand (2 * trialsPerCondition + 2 * i)%nat - Q2Qc (1 # 2)) * Qc_of_Z 2
       * incongruentVariance)%Qc in
  let isCorrect := gt (rand (2 * trialsPerCondition + 2 * i + 1)) errorRate in
  {| session_id := sessionId;
     word_text := word;
     font_color := COLORS colorName;
     is_congruent := false;
     reaction_time_ms := number_of_Z (Math_round rt);
     user_response := if isCorrect then colorName else word;
     is_correct := isCorrect |}.

(** [generateMockResults]. *)
Definition generateMockResults (rand : nat -> Qc) (sessionId : string)
    (options : Options.t) : list (TrialResult number) :=
  let congruentMean := default (Qc_of_Z 500) (Options.congruentMean options) in
  let incongruentMean := default (Qc_of_Z 650) (Options.incongruentMean options) in
  let congruentVariance := default (Qc_of_Z 50) (Options.congruentVariance options) in
  let incongruentVariance :=
    default (Qc_of_Z 80) (Options.incongruentVariance options) in
  let trialsPerCondition := default 10 (Options.trialsPerCondition options) in
  let errorRate := default (Q2Qc (5 # 100)) (Options.errorRate options) in
  map (congruentResult rand sessionId congruentMean congruentVariance errorRate)
    (seq 0 trialsPerCondition)
  ++ map (incongruentResult rand sessionId incongruentMean incongruentVariance
            errorRate trialsPerCondition)
       (seq 0 trialsPerCondition).

(** [list.reduce((sum, r) => sum + r.reaction_time_ms, 0)]. *)
Definition sumTimes (l : list (TrialResult number)) : number :=
  foldl (fun sum r => add sum (reaction_time_ms r)) (of_nat 0) l.

Module WordStats.
Record t : Type := make {
  congruentMean : number;
  incongruentMean : number;
  difference : number
}.
End WordStats.

Record ExpectedStats : Type := mkExpectedStats {
  congruentMean : number;
  incongruentMean : number;
  stroopEffect : number;
  accuracy : number;
  totalTrials : nat;
  correctTrials : nat;
  wordStats : list (ColorKey * WordStats.t)
}.

(** The statistics of one word: unlike the overall means, these are
    guarded against an empty selection. *)
Definition wordStat (results : list (TrialResult number)) (word : ColorKey)
    : WordStats.t :=
  let wordCongruent :=
    List.filter
      (fun r => bool_decide (word_text r = word) && is_congruent r && is_correct r)
      results in
  let wordIncongruent :=
    List.filter
      (fun r => bool_decide (word_text r = word) && negb (is_congruent r)
                && is_correct r)
      results in
  let wCongruentMean :=
    if 0 <? length wordCongruent
    then div (sumTimes wordCongruent) (of_nat (length wordCongruent))
    else of_nat 0 in
  let wIncongruentMean :=
    if 0 <? length wordIncongruent
    then div (sumTimes wordIncongruent) (of_nat (length wordIncongruent))
    else of_nat 0 in
  {| WordStats.congruentMean := number_round wCongruentMean;
     WordStats.incongruentMean := number_round wIncongruentMean;
     WordStats.difference := number_round (sub wIncongruentMean wCongruentMean) |}.

(** [calculateExpectedStats]. *)
Definition calculateExpectedStats (results : list (TrialResult number))
    : ExpectedStats :=
  let congruentCorrect :=
    List.filter (fun r => is_congruent r && is_correct r) results in
  let incongruentCorrect :=
    List.filter (fun r => negb (is_congruent r) && is_correct r) results in
  let congruentMean :=
    div (sumTimes congruentCorrect) (of_nat (length congruentCorrect)) in
  let incongruentMean :=
    div (sumTimes incongruentCorrect) (of_nat (length incongruentCorrect)) in
  let stroopEffect := sub incongruentMean congruentMean in
  let accuracy :=
    mul (div (of_nat (length (List.filter (fun r => is_correct r) results)))
             (of_nat (length results)))
        (of_nat 100) in
  {| congruentMean := number_round congruentMean;
     incongruentMean := number_round incongruentMean;
     stroopEffect := number_round stroopEffect;
     accuracy := number_round accuracy;
     totalTrials := length results;
     correctTrials := length (List.filter (fun r => is_correct r) results);
     wordStats := map (fun word => (word, wordStat results word)) WORDS |}.

End TestHelpers.

(** A mock result is consistent when its two flags say what its fields
    say: congruent when the word's colour is the font colour, correct when
    the response's colour is. *)
Definition consistent (r : TrialResult number) : Prop :=
  (is_congruent r = true <-> COLORS (word_text r) = font_color r)
  /\ (is_correct r = true <-> COLORS (user_response r) = font_color r).

(** Draws as [Math.random] delivers them: at least 0 and below 1. *)
Definition unit_draws (rand : nat -> Qc) : Prop :=
  forall k, (0 <= rand k)%Qc /\ (rand k < 1)%Qc.

(** The options of [generateMockResults] with the defaults filled in. *)
Definition mock_congruentMean (o : TestHelpers.Options.t) : Qc :=
  default (Qc_of_Z 500) (TestHelpers.Options.congruentMean o).
Definition mock_incongruentMean (o : TestHelpers.Options.t) : Qc :=
  default (Qc_of_Z 650) (TestHelpers.Options.incongruentMean o).
Definition mock_congruentVariance (o : TestHelpers.Options.t) : Qc :=
  default (Qc_of_Z 50) (TestHelpers.Options.congruentVariance o).
Definition mock_incongruentVariance (o : TestHelpers.Options.t) : Qc :=
  default (Qc_of_Z 80) (TestHelpers.Options.incongruentVariance o).
Definition mock_trialsPerCondition (o : TestHelpers.Options.t) : nat :=
  default 10 (TestHelpers.Options.trialsPerCondition o).
Definition mock_errorRate (o : TestHelpers.Options.t) : Qc :=
  default (Q2Qc (5 # 100)) (TestHelpers.Options.errorRate o).

(** The reaction time of a mock result is a whole number within the
    rounded variance band of its condition. *)
Definition within_band (o : TestHelpers.Options.t) (r : TrialResult number)
    : Prop :=
  exists z : Z,
    reaction_time_ms r = number_of_Z z
    /\ if is_congruent r
       then (Math_round (mock_congruentMean o - mock_congruentVariance o)%Qc <= z
             <= Math_round (mock_congruentMean o + mock_congruentVariance o)%Qc)%Z
       else (Math_round (mock_incongruentMean o - mock_incongruentVariance o)%Qc <= z
             <= Math_round (mock_incongruentMean o + mock_incongruentVariance o)%Qc)%Z.

(** ** Reading a figure back off the results page *)

(** The characters the pattern [[^0-9-]] leaves in place. *)
Definition is_digit (c : ascii) : bool :=
  (Ascii.leb "0" c && Ascii.leb c "9")%bool.

Definition digit (c : ascii) : nat := nat_of_ascii c - 48.

(** [text.replace(/[^0-9-]/g, '')]. *)
Fixpoint strip (s : string) : string :=
  match s with
  | EmptyString => EmptyString
  | String c s' =>
      if is_digit c || Ascii.eqb c "-" then String c (strip s') else strip s'
  end.

(** The longest run of decimal digits at the start of a text. *)
Fixpoint digits_prefix (s : string) : string :=
  match s with
  | EmptyString => EmptyString
  | String c s' => if is_digit c then String c (digits_prefix s') else EmptyString
  end.

Fixpoint digitsValue (s : string) (acc : nat) : nat :=
  match s with
  | EmptyString => acc
  | String c s' => digitsValue s' (10 * acc + digit c)
  end.

(** [parseInt(s, 10)] on a text that does not start with white space: an
    optional sign, then the longest run of digits; [NaN] when there is no
    digit. *)
Definition parseInt10 (s : string) : number :=
  let signed :=
    match s with
    | String "-" rest => (true, rest)
    | String "+" rest => (false, rest)
    | _ => (false, s)
    end in
  match digits_prefix signed.2 with
  | EmptyString => NaN
  | ds =>
      let value := Z.of_nat (digitsValue ds 0) in
      number_of_Z (if signed.1 then - value else value)%Z
  end.

(** The computation of [getDisplayedStat] on the text content it has
    located ([None] for a missing text). *)
Definition getDisplayedStat (valueText : option string) : number :=
  let stripped := strip <$> valueText in
  parseInt10
    match stripped with
    | Some (String c s) => String c s
    | _ => "0"
    end.

(** The decimal text of a whole number, as string conversion gives it for
    numbers below [10^21] in size. *)
Definition showNat (n : nat) : string := NilEmpty.string_of_uint (Nat.to_uint n).

Definition showInt (z : Z) : string :=
  if (z <? 0)%Z then String "-" (showNat (Z.to_nat (- z)))
  else showNat (Z.to_nat z).

(** The text of [{Math.round(x)}] inside a card. *)
Definition roundedText (x : number) : string :=
  match x with
  | Num q => showInt (Math_round q)
  | PInf => "Infinity"
  | NInf => "-Infinity"
  | NaN => "NaN"
  end.

(** The texts of the four cards. *)
Definition congruentText (sm : ResultsSummary number) : string :=
  String.append (roundedText (congruentAvg sm)) "ms".
Definition incongruentText (sm : ResultsSummary number) : string :=
  String.append (roundedText (incongruentAvg sm)) "ms".
Definition effectText (sm : ResultsSummary number) : string :=
  String.append "+" (String.append (roundedText (stroopEffect sm)) "ms").
Definition accuracyText (sm : ResultsSummary number) : string :=
  String.append (roundedText (accuracy sm)) "%".

(** ** Counting in any number arithmetic *)

(** The number of results selected by [P], counted in one pass, whatever
    the arithmetic of the reaction times. *)
Fixpoint count_where {N} (P : TrialResult N -> bool) (rs : list (TrialResult N))
    : nat :=
  match rs with
  | [] => 0
  | r :: rs' => if P r then S (count_where P rs') else count_where P rs'
  end.

(** Eleven correct and nine incorrect results, with binary64 times. *)
Definition eleven_of_twenty : list (TrialResult float) :=
  replicate 11 (result_of true true (float_of_Z 500))
  ++ replicate 9 (result_of false false (float_of_Z 500)).

(** ** Arithmetic of [number] *)

Lemma Num_inj_eq (p q : Qc) : (this p == this q)%Q -> Num p = Num q.
Proof. intros E. f_equal. now apply Qc_is_canon. Qed.

Lemma Qc_of_nat_0 : Qc_of_nat 0 = 0%Qc.
Proof. now apply Qc_is_canon. Qed.

Lemma Qc_of_nat_pos (n : nat) : (0 < Qc_of_nat (S n))%Qc.
Proof.
  unfold Qc_of_nat. rewrite <- Z2Qc_inj_0.
  apply (proj1 (Z2Qc_inj_lt 0 (Z.of_nat (S n)))). lia.
Qed.

Lemma Qc_of_nat_S_neq (n : nat) : Qc_of_nat (S n) <> 0%Qc.
Proof.
  intros E. apply (Qclt_not_eq _ _ (Qc_of_nat_pos n)). now rewrite E.
Qed.

Lemma Qc_of_nat_nonneg (n : nat) : (0 <= Qc_of_nat n)%Qc.
Proof.
  unfold Qc_of_nat. rewrite <- Z2Qc_inj_0.
  apply (proj1 (Z2Qc_inj_le 0 (Z.of_nat n))). lia.
Qed.

Lemma Qc_of_nat_le (m n : nat) : m <= n -> (Qc_of_nat m <= Qc_of_nat n)%Qc.
Proof. intros L. unfold Qc_of_nat.
  apply (proj1 (Z2Qc_inj_le (Z.of_nat m) (Z.of_nat n))). lia. Qed.

Lemma Qccompare_pos (q : Qc) : (0 < q)%Qc -> (q ?= 0)%Qc = Gt.
Proof. intros L. apply Qcgt_alt. exact L. Qed.

Lemma of_nat_number (n : nat) : of_nat n = Num (Qc_of_nat n).
Proof. reflexivity. Qed.

Lemma number_div_pos (p : Qc) (n : nat) :
  number_div (Num p) (Num (Qc_of_nat (S n))) = Num (p / Qc_of_nat (S n))%Qc.
Proof.
  unfold number_div. now rewrite (Qccompare_pos _ (Qc_of_nat_pos n)).
Qed.

Lemma foldl_add_finite (ts : list number) (a : Qc) :
  Forall is_finite ts ->
  foldl add (Num a) ts = Num (a + foldr (fun t s => finite_part t + s) 0 ts)%Qc.
Proof.
  revert a. induction ts as [|t ts IH]; intros a F; simpl.
  - f_equal. ring.
  - inversion F as [|? ? Ft Fts]; subst. destruct t; try contradiction.
    simpl. rewrite IH by assumption. f_equal. ring.
Qed.

(** ** The result aggregator *)

Section AggregatorFacts.
Implicit Types (rs : list (TrialResult number)) (P : TrialResult number -> bool).

Lemma filter_spec_count P rs : length (List.filter P rs) = spec_count P rs.
Proof.
  induction rs as [|r rs IH]; simpl; [reflexivity|].
  destruct (P r); simpl; congruence.
Qed.

Lemma filter_spec_sum P rs :
  foldr (fun t s => finite_part t + s)%Qc 0%Qc
    (map reaction_time_ms (List.filter P rs)) = spec_sum P rs.
Proof.
  induction rs as [|r rs IH]; simpl; [reflexivity|].
  destruct (P r); simpl; congruence.
Qed.

Lemma filter_finite_times P rs :
  finite_times rs -> Forall is_finite (map reaction_time_ms (List.filter P rs)).
Proof.
  unfold finite_times. induction 1 as [|r rs Hr Hrs IH]; simpl.
  - constructor.
  - destruct (P r); simpl; [constructor|]; assumption.
Qed.

Lemma spec_count_le_length P rs : spec_count P rs <= length rs.
Proof.
  induction rs as [|r rs IH]; simpl; [lia|]. destruct (P r); lia.
Qed.

Lemma spec_count_split P rs :
  spec_count P rs + spec_count (fun r => negb (P r)) rs = length rs.
Proof.
  induction rs as [|r rs IH]; simpl; [reflexivity|].
  destruct (P r); simpl; lia.
Qed.

(** [calculateAverage] over a filtered selection is the mean of that
    selection. *)
Lemma calculateAverage_filter P rs :
  finite_times rs ->
  calculateAverage (map reaction_time_ms (List.filter P rs))
  = Num (spec_mean P rs).
Proof.
  intros F. unfold spec_mean. rewrite <- (filter_spec_count P rs).
  pose proof (filter_finite_times P rs F) as Ff.
  pose proof (filter_spec_sum P rs) as Hs.
  destruct (List.filter P rs) as [|r0 l] eqn:E.
  - simpl. apply Num_inj_eq. reflexivity.
  - unfold calculateAverage.
    change (map reaction_time_ms (r0 :: l))
      with (reaction_time_ms r0 :: map reaction_time_ms l) in *.
    cbv iota. rewrite !of_nat_number, Qc_of_nat_0.
    rewrite foldl_add_finite by exact Ff. rewrite Hs.
    simpl length. rewrite length_map.
    change (div ?a ?b) with (number_div a b).
    rewrite number_div_pos, Qcplus_0_l. reflexivity.
Qed.

(** Filtering on correctness first does not change which results a
    conjunction with [is_correct] selects. *)
Lemma filter_correct_first (c : TrialResult number -> bool) rs :
  List.filter (fun r => c r && is_correct r)
    (List.filter (fun r => is_correct r) rs)
  = List.filter (fun r => c r && is_correct r) rs.
Proof.
  induction rs as [|r rs IH]; simpl; [reflexivity|].
  destruct (is_correct r) eqn:Ec; simpl.
  - rewrite Ec, IH. reflexivity.
  - rewrite andb_false_r. exact IH.
Qed.

Lemma accuracy_nonempty rs :
  rs <> [] ->
  accuracy (calculateSummary rs)
  = Num (Qc_of_nat (spec_count (fun r => is_correct r) rs)
         / Qc_of_nat (length rs) * Qc_of_nat 100)%Qc.
Proof.
  intros Hne. destruct rs as [|r rs]; [congruence|].
  unfold calculateSummary, accuracy. rewrite filter_spec_count.
  rewrite !of_nat_number. simpl length.
  change (mul ?a ?b) with (number_mul a b).
  change (div ?a ?b) with (number_div a b).
  rewrite number_div_pos. reflexivity.
Qed.
End AggregatorFacts.

Section Scenarios.
Implicit Types (rs : list (TrialResult number)).

Lemma all_selected_count (P : TrialResult number -> bool) rs :
  Forall (fun r => P r = true) rs -> spec_count P rs = length rs.
Proof.
  induction 1 as [|r rs Hr _ IH]; simpl; [reflexivity|]. now rewrite Hr, IH.
Qed.

Lemma all_selected_sum (P : TrialResult number -> bool) rs :
  Forall (fun r => P r = true) rs ->
  spec_sum P rs
  = foldr (fun t s => finite_part t + s)%Qc 0%Qc (map reaction_time_ms rs).
Proof.
  induction 1 as [|r rs Hr _ IH]; simpl; [reflexivity|]. now rewrite Hr, IH.
Qed.

Lemma finite_times_of_map rs (zs : list Z) :
  map reaction_time_ms rs = map number_of_Z zs -> finite_times rs.
Proof.
  unfold finite_times. revert zs.
  induction rs as [|r rs IH]; intros [|z zs] E; simpl in E;
    try discriminate; constructor.
  - injection E as E1 _. rewrite E1. exact I.
  - injection E as _ E2. eapply IH, E2.
Qed.

Lemma correct_count_split rs :
  spec_count congruent_correct rs + spec_count incongruent_correct rs
  = spec_count (fun r => is_correct r) rs.
Proof.
  induction rs as [|r rs IH]; simpl; [reflexivity|].
  unfold congruent_correct, incongruent_correct in *.
  destruct (is_congruent r), (is_correct r); simpl; lia.
Qed.

Lemma accuracy_all_correct rs :
  rs <> [] -> spec_count (fun r => is_correct r) rs = length rs ->
  accuracy (calculateSummary rs) = Num (Qc_of_nat 100).
Proof.
  intros Hne Hc. rewrite accuracy_nonempty by assumption. rewrite Hc.
  destruct rs as [|r rs]; [congruence|]. f_equal.
  simpl length. field. apply Qc_of_nat_S_neq.
Qed.
End Scenarios.

(** ** Statements about the aggregator *)

(** C2: [congruentAvg] is the arithmetic mean of [reaction_time_ms] over
    exactly the results that are congruent and correct, [incongruentAvg]
    the mean over the incongruent and correct ones; dropping the incorrect
    results changes neither mean; ten congruent, correct results with the
    times 400, 420, ..., 580 have the congruent mean 490. *)
Theorem summary_means_over_correct_trials (rs : list (TrialResult number)) :
  finite_times rs ->
  congruentAvg (calculateSummary rs) = Num (spec_mean congruent_correct rs)
  /\ incongruentAvg (calculateSummary rs)
     = Num (spec_mean incongruent_correct rs)
  /\ congruentAvg (calculateSummary (List.filter (fun r => is_correct r) rs))
     = congruentAvg (calculateSummary rs)
  /\ incongruentAvg (calculateSummary (List.filter (fun r => is_correct r) rs))
     = incongruentAvg (calculateSummary rs)
  /\ (map reaction_time_ms rs = map number_of_Z scenario_times ->
      Forall (fun r => congruent_correct r = true) rs ->
      congruentAvg (calculateSummary rs) = number_of_Z 490).
Proof.
  intros F.
  assert (Hc : congruentAvg (calculateSummary rs)
               = Num (spec_mean congruent_correct rs))
    by apply (calculateAverage_filter congruent_correct rs F).
  repeat split.
  - exact Hc.
  - apply (calculateAverage_filter incongruent_correct rs F).
  - unfold calculateSummary, congruentAvg.
    now rewrite (filter_correct_first (fun r => is_congruent r)).
  - unfold calculateSummary, incongruentAvg.
    now rewrite (filter_correct_first (fun r => negb (is_congruent r))).
  - intros Ht Hall. rewrite Hc. unfold spec_mean.
    rewrite (all_selected_count _ _ Hall), (all_selected_sum _ _ Hall), Ht.
    rewrite <- (length_map reaction_time_ms), Ht.
    apply Num_inj_eq. reflexivity.
Qed.

Lemma summary_means_over_correct_trials_witness :
  congruentAvg
    (calculateSummary
       (map (fun z => result_of true true (number_of_Z z)) scenario_times))
  = number_of_Z 490.
Proof.
  refine (proj2 (proj2 (proj2 (proj2
    (summary_means_over_correct_trials
       (map (fun z => result_of true true (number_of_Z z)) scenario_times)
       _)))) _ _).
  - repeat constructor.
  - reflexivity.
  - repeat constructor.
Defined.

(** C3: on the empty result list both means are the sentinel 0 and
    [totalTrials] is 0, but [accuracy] is the unguarded quotient [0 / 0],
    which is [NaN], in exact arithmetic and in binary64 alike. *)
Theorem summary_of_no_results :
  calculateSummary (@nil (TrialResult number))
  = {| congruentAvg := Num 0%Qc; incongruentAvg := Num 0%Qc;
       stroopEffect := Num 0%Qc; totalTrials := 0; correctTrials := 0;
       accuracy := NaN |}
  /\ calculateSummary (@nil (TrialResult float))
     = {| congruentAvg := 0%float; incongruentAvg := 0%float;
          stroopEffect := 0%float; totalTrials := 0; correctTrials := 0;
          accuracy := nan |}.
Proof.
  split.
  - unfold calculateSummary. simpl.
    f_equal; try reflexivity; apply Num_inj_eq; reflexivity.
  - vm_compute. reflexivity.
Qed.

Lemma filter_count_where {N} (P : TrialResult N -> bool)
    (rs : list (TrialResult N)) :
  length (List.filter P rs) = count_where P rs.
Proof.
  induction rs as [|r rs IH]; cbn [List.filter count_where]; [reflexivity|].
  destruct (P r); cbn [length]; congruence.
Qed.

Lemma count_where_split {N} (P : TrialResult N -> bool)
    (rs : list (TrialResult N)) :
  count_where P rs + count_where (fun r => negb (P r)) rs = length rs.
Proof.
  induction rs as [|r rs IH]; cbn [count_where length]; [reflexivity|].
  destruct (P r); cbn [negb]; lia.
Qed.

Lemma count_where_spec_count (P : TrialResult number -> bool)
    (rs : list (TrialResult number)) :
  count_where P rs = spec_count P rs.
Proof.
  induction rs as [|r rs IH]; cbn [count_where spec_count]; [reflexivity|].
  now rewrite IH.
Qed.

(** C7, as stated, fails on binary64: with 11 correct results out of 20 the
    expression [100 * 11 / 20] is 55, but [accuracy] is not: the quotient
    [11 / 20] is rounded before it is multiplied by 100. *)
Lemma accuracy_differs_in_last_place :
  PrimFloat.div (PrimFloat.mul (of_nat 100) (of_nat 11)) (of_nat 20) = 55%float
  /\ accuracy (calculateSummary eleven_of_twenty) <> 55%float.
Proof.
  split; [vm_compute; reflexivity|]. intros H.
  apply (f_equal (fun x => PrimFloat.eqb x 55%float)) in H.
  vm_compute in H. discriminate H.
Qed.

(** C7, amended: in whatever number arithmetic the code runs, [accuracy] is
    the quotient [correctCount / totalCount] multiplied by 100, in that
    order; five correct and five incorrect results give exactly 50 in
    binary64; and in exact arithmetic the value is
    [100 * correctCount / totalCount] for every non-empty list. *)
Theorem accuracy_is_quotient_times_hundred :
  (forall (N : Type) (HN : JSNumber N) (rs : list (TrialResult N)),
     accuracy (calculateSummary rs)
     = mul (div (of_nat (count_where (fun r => is_correct r) rs))
                (of_nat (length rs)))
           (of_nat 100))
  /\ (forall rs : list (TrialResult float),
        count_where (fun r => is_correct r) rs = 5 ->
        count_where (fun r => negb (is_correct r)) rs = 5 ->
        accuracy (calculateSummary rs) = 50%float)
  /\ (forall rs : list (TrialResult number),
        rs <> [] ->
        accuracy (calculateSummary rs)
        = Num (Qc_of_nat 100
               * Qc_of_nat (count_where (fun r => is_correct r) rs)
               / Qc_of_nat (length rs))%Qc).
Proof.
  assert (Hgen : forall (N : Type) (HN : JSNumber N) (rs : list (TrialResult N)),
             accuracy (calculateSummary rs)
             = mul (div (of_nat (count_where (fun r => is_correct r) rs))
                        (of_nat (length rs)))
                   (of_nat 100)).
  { intros N HN rs. unfold calculateSummary. cbn [accuracy].
    now rewrite filter_count_where. }
  split; [exact Hgen|]. split.
  - intros rs H5 H5'. rewrite Hgen.
    rewrite <- (count_where_split (fun r => is_correct r) rs), H5, H5'.
    vm_compute. reflexivity.
  - intros rs Hne. rewrite accuracy_nonempty by assumption.
    rewrite count_where_spec_count. f_equal. unfold Qcdiv. ring.
Qed.

Lemma accuracy_is_quotient_times_hundred_witness :
  accuracy
    (calculateSummary
       (map (fun ok => result_of true ok (float_of_Z 500))
          [true; false; true; false; true; false; true; false; true; false]))
  = 50%float.
Proof.
  refine (proj1 (proj2 accuracy_is_quotient_times_hundred) _ _ _).
  - reflexivity.
  - reflexivity.
Defined.

(** C8: [stroopEffect] is [incongruentAvg - congruentAvg], unclamped, hence
    negative when the congruent mean is the larger one; ten correct
    congruent results averaging 400 and ten correct incongruent results
    averaging 550 give [stroopEffect = 150] and [accuracy = 100]. *)
Theorem stroop_effect_is_difference (rs : list (TrialResult number)) :
  finite_times rs ->
  stroopEffect (calculateSummary rs)
  = sub (incongruentAvg (calculateSummary rs))
        (congruentAvg (calculateSummary rs))
  /\ stroopEffect (calculateSummary rs)
     = Num (spec_mean incongruent_correct rs
            - spec_mean congruent_correct rs)%Qc
  /\ ((spec_mean incongruent_correct rs < spec_mean congruent_correct rs)%Qc ->
      exists q, stroopEffect (calculateSummary rs) = Num q /\ (q < 0)%Qc)
  /\ (length rs = 20 ->
      spec_count congruent_correct rs = 10 ->
      spec_mean congruent_correct rs = Qc_of_nat 400 ->
      spec_count incongruent_correct rs = 10 ->
      spec_mean incongruent_correct rs = Qc_of_nat 550 ->
      stroopEffect (calculateSummary rs) = Num (Qc_of_nat 150)
      /\ accuracy (calculateSummary rs) = Num (Qc_of_nat 100)).
Proof.
  intros F.
  assert (Hd : stroopEffect (calculateSummary rs)
               = Num (spec_mean incongruent_correct rs
                      - spec_mean congruent_correct rs)%Qc).
  { unfold calculateSummary, stroopEffect.
    rewrite (calculateAverage_filter
               (fun r => is_congruent r && is_correct r) rs F).
    rewrite (calculateAverage_filter
               (fun r => negb (is_congruent r) && is_correct r) rs F).
    reflexivity. }
  split; [reflexivity|]. split; [exact Hd|]. split.
  - intros Hlt. eexists. split; [exact Hd|].
    apply (proj1 (Qcplus_lt_mono_r _ _ (- spec_mean congruent_correct rs)))
      in Hlt.
    rewrite Qcplus_opp_r in Hlt. exact Hlt.
  - intros Hlen Hcc Hcm Hic Him. split.
    + rewrite Hd, Hcm, Him. apply Num_inj_eq. reflexivity.
    + apply accuracy_all_correct.
      * intros ->. discriminate.
      * rewrite <- correct_count_split, Hcc, Hic, Hlen. reflexivity.
Qed.

Lemma stroop_effect_is_difference_witness :
  (stroopEffect
     (calculateSummary
        (replicate 10 (result_of true true (number_of_Z 400))
         ++ replicate 10 (result_of false true (number_of_Z 550))))
   = Num (Qc_of_nat 150)
   /\ accuracy
        (calculateSummary
           (replicate 10 (result_of true true (number_of_Z 400))
            ++ replicate 10 (result_of false true (number_of_Z 550))))
      = Num (Qc_of_nat 100))
  /\ exists q,
       stroopEffect
         (calculateSummary
            [result_of true true (number_of_Z 600);
             result_of false true (number_of_Z 500)]) = Num q
       /\ (q < 0)%Qc.
Proof.
  split.
  - refine (proj2 (proj2 (proj2 (stroop_effect_is_difference _ _))) _ _ _ _ _).
    + repeat constructor.
    + reflexivity.
    + reflexivity.
    + apply Qc_is_canon. reflexivity.
    + reflexivity.
    + apply Qc_is_canon. reflexivity.
  - refine (proj1 (proj2 (proj2 (stroop_effect_is_difference _ _))) _).
    + repeat constructor.
    + reflexivity.
Defined.

(** C10: [totalTrials] is the length of the input, [correctTrials] the
    number of correct results, which never exceeds it, and on a non-empty
    input [accuracy] lies between 0 and 100. *)
Theorem summary_counts_and_accuracy_range (rs : list (TrialResult number)) :
  totalTrials (calculateSummary rs) = length rs
  /\ correctTrials (calculateSummary rs)
     = spec_count (fun r => is_correct r) rs
  /\ correctTrials (calculateSummary rs) <= totalTrials (calculateSummary rs)
  /\ (rs <> [] ->
      exists q, accuracy (calculateSummary rs) = Num q
                /\ (0 <= q)%Qc /\ (q <= Qc_of_nat 100)%Qc).
Proof.
  split; [reflexivity|]. split; [apply filter_spec_count|]. split.
  - unfold calculateSummary, correctTrials, totalTrials.
    rewrite filter_spec_count. apply spec_count_le_length.
  - intros Hne. eexists. split; [apply accuracy_nonempty, Hne|].
    destruct rs as [|r rs]; [congruence|].
    set (c := spec_count _ _). simpl length.
    assert (Hc : c <= S (length rs)) by apply spec_count_le_length.
    pose proof (Qc_of_nat_pos (length rs)) as Hn.
    pose proof (Qcinv_pos _ Hn) as Hi.
    assert (H0 : (0 <= Qc_of_nat c / Qc_of_nat (S (length rs)))%Qc).
    { apply Qcmult_nonneg_nonneg; [apply Qc_of_nat_nonneg|].
      apply Qclt_le_weak, Hi. }
    assert (H1 : (Qc_of_nat c / Qc_of_nat (S (length rs)) <= 1)%Qc).
    { rewrite <- (Qcmult_inv_r (Qc_of_nat (S (length rs))))
        by apply Qc_of_nat_S_neq.
      apply Qcmult_le_compat_r; [apply Qc_of_nat_le, Hc|].
      apply Qclt_le_weak, Hi. }
    split.
    + apply Qcmult_nonneg_nonneg; [exact H0|apply Qc_of_nat_nonneg].
    + rewrite <- (Qcmult_1_l (Qc_of_nat 100)) at 2.
      apply Qcmult_le_compat_r; [exact H1|apply Qc_of_nat_nonneg].
Qed.

Lemma summary_counts_and_accuracy_range_witness :
  exists q,
    accuracy
      (calculateSummary
         [result_of true true (number_of_Z 450);
          result_of false false (number_of_Z 700);
          result_of false true (number_of_Z 610)]) = Num q
    /\ (0 <= q)%Qc /\ (q <= Qc_of_nat 100)%Qc.
Proof.
  refine (proj2 (proj2 (proj2 (summary_counts_and_accuracy_range _))) _).
  discriminate.
Defined.

(** The worked scenarios again, run on binary64: the figures quoted for
    them are exact there as well. *)
Example scenarios_binary64 :
  congruentAvg
    (calculateSummary
       (map (fun z => result_of true true (float_of_Z z)) scenario_times))
  = 490%float
  /\ accuracy
       (calculateSummary
          (map (fun ok => result_of true ok (float_of_Z 500))
             [true; false; true; false; true; false; true; false; true; false]))
     = 50%float
  /\ stroopEffect
       (calculateSummary
          (replicate 10 (result_of true true (float_of_Z 400))
           ++ replicate 10 (result_of false true (float_of_Z 550))))
     = 150%float
  /\ accuracy
       (calculateSummary
          (replicate 10 (result_of true true (float_of_Z 400))
           ++ replicate 10 (result_of false true (float_of_Z 550))))
     = 100%float
  /\ stroopEffect
       (calculateSummary
          [result_of true true (float_of_Z 600);
           result_of false true (float_of_Z 500)])
     = (-100)%float.
Proof. vm_compute. repeat split. Qed.

(** In binary64 the quotient is rounded before it is multiplied by 100, so
    the last place of [accuracy] can differ from the exact percentage: 11
    correct results out of 20 give 55.000000000000007. *)
Example accuracy_binary64_last_place :
  accuracy
    (calculateSummary
       (replicate 11 (result_of true true (float_of_Z 500))
        ++ replicate 9 (result_of false false (float_of_Z 500))))
  = 0x1.b800000000001p+5%float.
Proof. vm_compute. reflexivity. Qed.

(** ** The response evaluator *)

Lemma categoryOfColor_COLORS (k : ColorKey) : categoryOfColor (COLORS k) = Some k.
Proof. destruct k; reflexivity. Qed.

Lemma categoryOfColor_Some (c : string) (k : ColorKey) :
  categoryOfColor c = Some k -> COLORS k = c.
Proof.
  unfold categoryOfColor, WORDS. cbn [List.find].
  repeat
    match goal with
    | |- context [String.eqb ?a c] =>
        destruct (String.eqb_spec a c) as [E|_];
        [intros [= <-]; exact E|]
    end.
  discriminate.
Qed.

Lemma COLORS_inj (j k : ColorKey) : COLORS j = COLORS k -> j = k.
Proof. destruct j, k; simpl; intros E; try reflexivity; discriminate. Qed.

(** C1: [isCorrectResponse] holds exactly of the category whose canonical
    display attribute is the trial's font colour: if the font colour is
    that of category [C], the response [C] is correct and every other
    response is not, whatever the printed word. *)
Theorem isCorrectResponse_judges_font_color (trial : Trial) (response : ColorKey) :
  (isCorrectResponse trial response = true <-> COLORS response = fontColor trial)
  /\ (forall C : ColorKey,
        fontColor trial = COLORS C ->
        isCorrectResponse trial C = true
        /\ forall C' : ColorKey, C' <> C -> isCorrectResponse trial C' = false).
Proof.
  assert (Hiff : forall r, isCorrectResponse trial r = true
                           <-> COLORS r = fontColor trial).
  { intros r. unfold isCorrectResponse. split.
    - destruct (categoryOfColor (fontColor trial)) as [c|] eqn:E;
        [|discriminate].
      intros Hb. apply bool_decide_eq_true in Hb. subst c.
      now apply categoryOfColor_Some.
    - intros <-. rewrite categoryOfColor_COLORS.
      now apply bool_decide_eq_true. }
  split; [apply Hiff|].
  intros C HC. split.
  - apply Hiff. now symmetry.
  - intros C' Hne. apply not_true_is_false. intros Hb.
    apply Hiff in Hb. apply Hne, COLORS_inj. congruence.
Qed.

Lemma isCorrectResponse_judges_font_color_witness :
  isCorrectResponse
    {| id := 0; wordText := red; fontColor := COLORS green;
       isCongruent := false |} green = true
  /\ isCorrectResponse
       {| id := 0; wordText := red; fontColor := COLORS green;
          isCongruent := false |} red = false.
Proof.
  destruct (proj2 (isCorrectResponse_judges_font_color
                     {| id := 0; wordText := red; fontColor := COLORS green;
                        isCongruent := false |} green) green eq_refl)
    as [Hyes Hno].
  split; [exact Hyes|]. apply Hno. discriminate.
Defined.

(** ** The timing service *)

Lemma Qc_floor_bounds (y : Qc) :
  (Qc_of_Z (Qfloor y) <= y)%Qc /\ (y < Qc_of_Z (Qfloor y + 1))%Qc.
Proof.
  unfold Qcle, Qclt, Qc_of_Z, Q2Qc. cbn [this].
  split; [apply Qfloor_le|apply Qlt_floor].
Qed.

Lemma Qc_of_Z_succ (z : Z) : Qc_of_Z (z + 1) = (Qc_of_Z z + 1)%Qc.
Proof. now rewrite Z2Qc_inj_add, Z2Qc_inj_1. Qed.

Lemma half_plus_half : (Q2Qc (1 # 2) + Q2Qc (1 # 2) = 1)%Qc.
Proof. apply Qc_is_canon. reflexivity. Qed.

(** [Math_round x] is within half a unit of [x]. *)
Lemma Math_round_nearest (x : Qc) :
  (Qc_of_Z (Math_round x) - Q2Qc (1 # 2) <= x)%Qc
  /\ (x < Qc_of_Z (Math_round x) + Q2Qc (1 # 2))%Qc.
Proof.
  unfold Math_round.
  destruct (Qc_floor_bounds (x + Q2Qc (1 # 2))%Qc) as [Hl Hu].
  set (z := Qfloor (x + Q2Qc (1 # 2))%Qc) in *.
  rewrite Qc_of_Z_succ in Hu. split.
  - apply (Qcplus_le_mono_r _ _ (Q2Qc (1 # 2))).
    unfold Qcminus. rewrite <- Qcplus_assoc, (Qcplus_comm (- _)), Qcplus_opp_r,
      Qcplus_0_r. exact Hl.
  - apply (Qcplus_lt_mono_r _ _ (Q2Qc (1 # 2))).
    rewrite <- Qcplus_assoc, half_plus_half. exact Hu.
Qed.

Lemma Math_round_nonneg (x : Qc) : (0 <= x)%Qc -> (0 <= Math_round x)%Z.
Proof.
  intros Hx. unfold Math_round.
  change 0%Z with (Qfloor 0). apply Qfloor_resp_le.
  change (0 <= x + Q2Qc (1 # 2))%Qc.
  rewrite <- (Qcplus_0_l 0). apply Qcplus_le_compat; [exact Hx|].
  now unfold Qcle.
Qed.

Lemma Math_round_negative (x : Qc) : (x < 0)%Qc -> (Math_round x <= 0)%Z.
Proof.
  intros Hx. destruct (Math_round_nearest x) as [Hl _].
  assert (H : (Qc_of_Z (Math_round x) < Qc_of_Z 1)%Qc).
  { rewrite Z2Qc_inj_1, <- half_plus_half.
    apply (Qcplus_lt_mono_r _ _ (- Q2Qc (1 # 2))).
    rewrite <- Qcplus_assoc, Qcplus_opp_r, Qcplus_0_r.
    eapply Qcle_lt_trans; [exact Hl|].
    eapply Qclt_trans; [exact Hx|]. now unfold Qclt. }
  apply (proj2 (Z2Qc_inj_lt _ _)) in H. lia.
Qed.

(** C9: the elapsed reaction time is a non-negative integer; it is the
    elapsed duration rounded to the nearest millisecond, and zero when the
    clock reading lies before the onset. *)
Theorem calculateReactionTime_rounds_and_clamps (now onset : Qc) :
  (0 <= calculateReactionTime now onset)%Z
  /\ ((onset <= now)%Qc ->
      (Qc_of_Z (calculateReactionTime now onset) - Q2Qc (1 # 2)
       <= now - onset)%Qc
      /\ (now - onset
          < Qc_of_Z (calculateReactionTime now onset) + Q2Qc (1 # 2))%Qc)
  /\ ((now < onset)%Qc -> calculateReactionTime now onset = 0%Z).
Proof.
  unfold calculateReactionTime. split; [lia|]. split.
  - intros Hle.
    assert (H0 : (0 <= now - onset)%Qc).
    { apply (Qcplus_le_mono_r _ _ onset). unfold Qcminus.
      rewrite <- Qcplus_assoc, (Qcplus_comm (- _)), Qcplus_opp_r,
        Qcplus_0_r, Qcplus_0_l. exact Hle. }
    rewrite Z.max_r by now apply Math_round_nonneg.
    apply Math_round_nearest.
  - intros Hlt.
    assert (H0 : (now - onset < 0)%Qc).
    { apply (Qcplus_lt_mono_r _ _ onset). unfold Qcminus.
      rewrite <- Qcplus_assoc, (Qcplus_comm (- _)), Qcplus_opp_r,
        Qcplus_0_r, Qcplus_0_l. exact Hlt. }
    apply Z.max_l. now apply Math_round_negative.
Qed.

Lemma calculateReactionTime_rounds_and_clamps_witness :
  calculateReactionTime (Qc_of_Z 1000) (Qc_of_Z 1200) = 0%Z
  /\ (Qc_of_Z (calculateReactionTime (Q2Qc (24013 # 10)) (Qc_of_Z 2000))
      - Q2Qc (1 # 2)
      <= Q2Qc (24013 # 10) - Qc_of_Z 2000)%Qc.
Proof.
  split.
  - refine (proj2 (proj2 (calculateReactionTime_rounds_and_clamps _ _)) _).
    reflexivity.
  - refine (proj1 (proj1 (proj2
      (calculateReactionTime_rounds_and_clamps _ _)) _)).
    unfold Qcle. simpl. discriminate.
Defined.

(** ** The trial generator *)

Lemma swap_Permutation {A} (l : list A) (i j : nat) : swap l i j ≡ₚ l.
Proof.
  unfold swap.
  destruct (l !! i) as [x|] eqn:Ei; [|reflexivity].
  destruct (l !! j) as [y|] eqn:Ej; [|reflexivity].
  now apply Permutation_insert_swap.
Qed.

Lemma shuffle_loop_Permutation {A} (rng : nat -> nat) (i k : nat) (l : list A) :
  shuffle_loop rng k i l ≡ₚ l.
Proof.
  revert k l. induction i as [|i IH]; intros k l; simpl; [reflexivity|].
  rewrite IH. apply swap_Permutation.
Qed.

Lemma shuffle_Permutation {A} (rng : nat -> nat) (k : nat) (l : list A) :
  shuffle rng k l ≡ₚ l.
Proof. apply shuffle_loop_Permutation. Qed.

Lemma generateTrials_Permutation (rng : nat -> nat) :
  generateTrials rng
  ≡ₚ map congruentTrial (seq 0 (TOTAL_TRIALS / 2))
     ++ map (incongruentTrial rng) (seq 0 (TOTAL_TRIALS / 2)).
Proof. apply shuffle_Permutation. Qed.

Lemma filter_length_Permutation {A} (f : A -> bool) (l l' : list A) :
  l ≡ₚ l' -> length (List.filter f l) = length (List.filter f l').
Proof.
  induction 1 as [|x l l' _ IH|x y l|l l' l'' _ IH1 _ IH2]; simpl.
  - reflexivity.
  - destruct (f x); simpl; congruence.
  - destruct (f x), (f y); reflexivity.
  - congruence.
Qed.

Lemma filter_map_all {A B} (f : B -> bool) (g : A -> B) (b : bool) (l : list A) :
  (forall a, f (g a) = b) ->
  length (List.filter f (map g l)) = if b then length l else 0.
Proof.
  intros Hb. induction l as [|a l IH]; simpl.
  - now destruct b.
  - rewrite Hb. destruct b; simpl; congruence.
Qed.

Lemma generateTrials_length (rng : nat -> nat) :
  length (generateTrials rng) = TOTAL_TRIALS.
Proof.
  rewrite (Permutation_length (generateTrials_Permutation rng)).
  rewrite length_app, !length_map, !length_seq. reflexivity.
Qed.

(** C6: whatever the pseudo-random choices, [generateTrials] returns 20
    trials, 10 of them congruent and 10 incongruent. *)
Theorem generateTrials_balanced (rng : nat -> nat) :
  length (generateTrials rng) = 20
  /\ length (List.filter isCongruent (generateTrials rng)) = 10
  /\ length (List.filter (fun t => negb (isCongruent t)) (generateTrials rng)) = 10.
Proof.
  pose proof (generateTrials_Permutation rng) as HP.
  split; [|split].
  - apply generateTrials_length.
  - rewrite (filter_length_Permutation _ _ _ HP), List.filter_app, length_app.
    rewrite (filter_map_all isCongruent congruentTrial true) by reflexivity.
    rewrite (filter_map_all isCongruent (incongruentTrial rng) false)
      by reflexivity.
    rewrite length_seq. reflexivity.
  - rewrite (filter_length_Permutation _ _ _ HP), List.filter_app, length_app.
    rewrite (filter_map_all (fun t => negb (isCongruent t)) congruentTrial false)
      by reflexivity.
    rewrite (filter_map_all (fun t => negb (isCongruent t))
               (incongruentTrial rng) true) by reflexivity.
    rewrite length_seq. reflexivity.
Qed.

(** Every generated trial is congruent exactly when the canonical colour
    of its word is its font colour. *)
Lemma generateTrials_congruency (rng : nat -> nat) :
  Forall (fun t => isCongruent t = String.eqb (COLORS (wordText t)) (fontColor t))
    (generateTrials rng).
Proof.
  rewrite (generateTrials_Permutation rng).
  apply Forall_app. split; apply Forall_forall; intros t Ht;
    apply list_elem_of_In, in_map_iff in Ht; destruct Ht as (i & <- & _).
  - unfold congruentTrial, nth_word. change (length WORDS) with 3.
    assert (Hi : i mod 3 < 3) by (apply Nat.mod_upper_bound; lia).
    destruct (i mod 3) as [|[|[|?]]]; try lia; reflexivity.
  - unfold incongruentTrial, nth_word, draw. change (length WORDS) with 3.
    assert (Hi : i mod 3 < 3) by (apply Nat.mod_upper_bound; lia).
    destruct (i mod 3) as [|[|[|?]]]; try lia;
      cbn [isCongruent wordText fontColor];
      match goal with
      | |- context [rng i mod ?n] => change n with 2
      end;
      (assert (Hr : rng i mod 2 < 2) by (apply Nat.mod_upper_bound; lia));
      destruct (rng i mod 2) as [|[|?]]; try lia; reflexivity.
Qed.

(** The generator run on one stream of choices. *)
Example generateTrials_sample :
  map (fun t => (id t, wordText t, fontColor t, isCongruent t))
    (take 4 (generateTrials (fun k => 7 * k + 3)))
  = [(2, yellow, "#fbbf24", true); (10, red, "#fbbf24", false);
     (0, red, "#f43f5e", true); (1, green, "#34d399", true)].
Proof. vm_compute. reflexivity. Qed.

(** ** The session state machine *)

Ltac page_fields :=
  cbn [sessionId trials currentIndex isWaiting results startTime
       stroop_session_id stroop_results inserted timers route].

Lemma onsetEffect_session (now : Qc) (old new : PageState) :
  results (onsetEffect now old new) = results new
  /\ currentIndex (onsetEffect now old new) = currentIndex new
  /\ isWaiting (onsetEffect now old new) = isWaiting new
  /\ timers (onsetEffect now old new) = timers new.
Proof. unfold onsetEffect. destruct (_ && _); repeat split. Qed.

Lemma session_invariant_onsetEffect (now : Qc) (old new : PageState) :
  session_invariant new -> session_invariant (onsetEffect now old new).
Proof.
  unfold session_invariant.
  destruct (onsetEffect_session now old new) as (-> & -> & -> & ->). tauto.
Qed.

(** Past the guard of [handleResponse] there is a session identifier and a
    current trial. *)
Lemma guard_passed (s : PageState) :
  isWaiting s || negb (truthy (sessionId s))
  || (length (trials s) <=? currentIndex s) = false ->
  isWaiting s = false
  /\ (exists sid, sessionId s = Some sid)
  /\ (exists t, trials s !! currentIndex s = Some t).
Proof.
  intros G. apply orb_false_elim in G as [G Hlen].
  apply orb_false_elim in G as [Hw Hsid].
  split; [exact Hw|]. split.
  - destruct (sessionId s) as [sid|]; [now exists sid|discriminate].
  - apply Nat.leb_gt in Hlen. apply lookup_lt_is_Some_2 in Hlen.
    destruct Hlen as [t Ht]. now exists t.
Qed.

(** A response that passes the guard appends exactly one result, leaves the
    index alone and starts the inter-trial wait. *)
Lemma accepted_response (response : ColorKey) (now : Qc) (s : PageState) :
  isWaiting s || negb (truthy (sessionId s))
  || (length (trials s) <=? currentIndex s) = false ->
  exists result,
    results (handleResponse response now s) = results s ++ [result]
    /\ currentIndex (handleResponse response now s) = currentIndex s
    /\ isWaiting (handleResponse response now s) = true
    /\ exists timer, timers (handleResponse response now s) = timers s ++ [timer].
Proof.
  intros G. unfold handleResponse. rewrite G.
  destruct (guard_passed s G) as (_ & [sid ->] & [t ->]).
  destruct (TOTAL_TRIALS <=? currentIndex s + 1);
    eexists; cbn; repeat split; eexists; reflexivity.
Qed.

Lemma ignored_response (response : ColorKey) (now : Qc) (s : PageState) :
  isWaiting s || negb (truthy (sessionId s))
  || (length (trials s) <=? currentIndex s) = true ->
  handleResponse response now s = s.
Proof. intros G. unfold handleResponse. now rewrite G. Qed.

Lemma handleResponse_guard_after (response : ColorKey) (now : Qc) (s : PageState) :
  let s' := handleResponse response now s in
  isWaiting s' || negb (truthy (sessionId s'))
  || (length (trials s') <=? currentIndex s') = true.
Proof.
  cbv zeta.
  destruct (isWaiting s || negb (truthy (sessionId s))
            || (length (trials s) <=? currentIndex s)) eqn:G.
  - now rewrite ignored_response.
  - destruct (accepted_response response now s G) as (_ & _ & _ & -> & _).
    reflexivity.
Qed.

Lemma filter_advance_nil_iff (ts : list Timer) :
  existsb is_advance ts = false <-> length (List.filter is_advance ts) = 0.
Proof.
  induction ts as [|t ts IH]; simpl; [tauto|].
  destruct (is_advance t); simpl; [split; intros; discriminate|exact IH].
Qed.

Lemma session_invariant_step (s : PageState) (e : Event) :
  match e with
  | Restart _ _ _ => existsb is_advance (timers s) = false
  | _ => True
  end ->
  session_invariant s -> session_invariant (step s e).
Proof.
  intros Hcalm [Hlen Htim]. destruct e as [rng now|r now|sid rng now|now]; simpl.
  - unfold mount. destruct (truthy (stroop_session_id s)).
    + apply session_invariant_onsetEffect. split; assumption.
    + split; assumption.
  - destruct (isWaiting s || negb (truthy (sessionId s))
              || (length (trials s) <=? currentIndex s)) eqn:G.
    + rewrite ignored_response by exact G. split; assumption.
    + destruct (accepted_response r now s G)
        as (res & Hr & Hi & Hw & timer & Ht).
      destruct (guard_passed s G) as (Hw0 & _ & _).
      rewrite Hw0 in Hlen, Htim.
      unfold session_invariant. rewrite Hr, Hi, Hw, Ht.
      rewrite length_app, List.filter_app, length_app. simpl length at 2.
      split; [lia|]. simpl. destruct (is_advance timer); simpl; lia.
  - apply session_invariant_onsetEffect. split; simpl; [reflexivity|].
    apply filter_advance_nil_iff in Hcalm. lia.
  - unfold timerFires. destruct (timers s) as [|[|] rest] eqn:Et.
    + unfold session_invariant. rewrite Et. split; assumption.
    + apply session_invariant_onsetEffect. simpl in Htim.
      destruct (isWaiting s); [|lia]. split; simpl; lia.
    + split; simpl; [exact Hlen|]. simpl in Htim. exact Htim.
Qed.

Lemma session_invariant_run (events : list Event) (s : PageState) :
  restarts_after_timers s events = true ->
  session_invariant s -> session_invariant (run s events).
Proof.
  revert s. induction events as [|e events IH]; intros s Hcalm Hinv;
    [exact Hinv|].
  simpl in Hcalm. apply andb_prop in Hcalm as [He Hrest].
  apply (IH (step s e) Hrest). apply session_invariant_step; [|exact Hinv].
  destruct e; try exact I. now apply negb_true_iff in He.
Qed.

Lemma session_invariant_initial (stored : option string) :
  session_invariant (initial stored).
Proof. split; simpl; lia. Qed.

Lemma reachable_invariant_onsetEffect (now : Qc) (old new : PageState) :
  reachable_invariant new -> reachable_invariant (onsetEffect now old new).
Proof.
  unfold reachable_invariant, onsetEffect. destruct (_ && _); page_fields; tauto.
Qed.

Lemma reachable_invariant_step (s : PageState) (e : Event) :
  reachable_invariant s -> reachable_invariant (step s e).
Proof.
  intros [Hlen Htr]. destruct e as [rng now|r now|sid rng now|now]; cbn [step].
  - unfold mount. destruct (truthy (stroop_session_id s)).
    + apply reachable_invariant_onsetEffect. split; page_fields; [exact Hlen|].
      right. apply generateTrials_length.
    + split; assumption.
  - destruct (isWaiting s || negb (truthy (sessionId s))
              || (length (trials s) <=? currentIndex s)) eqn:G.
    + rewrite ignored_response by exact G. split; assumption.
    + destruct (accepted_response r now s G) as (res & Hr & Hi & Hw & _).
      destruct (guard_passed s G) as (Hw0 & _ & _). rewrite Hw0 in Hlen.
      unfold reachable_invariant. rewrite Hr, Hi, Hw, length_app.
      cbn [length]. split; [lia|].
      unfold handleResponse. rewrite G.
      destruct (guard_passed s G) as (_ & [sid' ->] & [t ->]).
      destruct (TOTAL_TRIALS <=? currentIndex s + 1); exact Htr.
  - unfold handleRestart. apply reachable_invariant_onsetEffect.
    split; page_fields; [cbn [length]; lia|].
    right. apply generateTrials_length.
  - unfold timerFires. destruct (timers s) as [|[|] rest].
    + split; assumption.
    + apply reachable_invariant_onsetEffect. split; page_fields; [|exact Htr].
      destruct (isWaiting s); lia.
    + split; assumption.
Qed.

Lemma reachable_invariant_run (events : list Event) (s : PageState) :
  reachable_invariant s -> reachable_invariant (run s events).
Proof.
  revert s. induction events as [|e events IH]; intros s Hinv; [exact Hinv|].
  apply (IH (step s e)), reachable_invariant_step, Hinv.
Qed.

(** Once as many results as trials are recorded, the guard of
    [handleResponse] is closed in every reachable state. *)
Lemma guard_closed_when_all_recorded (stored : option string) (events : list Event) :
  let s := run (initial stored) events in
  TOTAL_TRIALS <= length (results s) ->
  isWaiting s || negb (truthy (sessionId s))
  || (length (trials s) <=? currentIndex s) = true.
Proof.
  cbv zeta. intros Hall.
  destruct (reachable_invariant_run events (initial stored)) as [Hlen Htr].
  { split; simpl; [lia|now left]. }
  destruct (isWaiting (run (initial stored) events)); [reflexivity|].
  rewrite orb_false_l. apply orb_true_iff. right. apply Nat.leb_le.
  destruct Htr as [-> | ->]; lia.
Qed.

(** C4, as stated, fails: right after the first response has been recorded
    the result list has one entry while the index is still 0. *)
Lemma results_ahead_of_index_during_wait :
  length (results (run started one_response))
  <> currentIndex (run started one_response).
Proof. vm_compute. discriminate. Qed.

(** C4, amended: in every state reached from the initial page state by
    mounting, responses, timer expiries and restarts issued while no
    inter-trial timeout is pending, the result list is as long as the index,
    plus one during the inter-trial wait; so the two agree whenever the
    page is not waiting. *)
Theorem result_count_tracks_index (stored : option string) (events : list Event) :
  restarts_after_timers (initial stored) events = true ->
  length (results (run (initial stored) events))
  = currentIndex (run (initial stored) events)
    + (if isWaiting (run (initial stored) events) then 1 else 0)
  /\ (isWaiting (run (initial stored) events) = false ->
      length (results (run (initial stored) events))
      = currentIndex (run (initial stored) events)).
Proof.
  intros Hcalm.
  destruct (session_invariant_run events (initial stored) Hcalm
              (session_invariant_initial stored)) as [Hlen _].
  split; [exact Hlen|]. intros Hw. rewrite Hw in Hlen. lia.
Qed.

Lemma result_count_tracks_index_witness :
  length (results (run (initial (Some "session-1"))
                     (Mount fixed_choices 0%Qc :: two_trials_then_restart)))
  = currentIndex (run (initial (Some "session-1"))
                    (Mount fixed_choices 0%Qc :: two_trials_then_restart))
    + (if isWaiting (run (initial (Some "session-1"))
                       (Mount fixed_choices 0%Qc :: two_trials_then_restart))
       then 1 else 0).
Proof.
  refine (proj1 (result_count_tracks_index (Some "session-1")
                   (Mount fixed_choices 0%Qc :: two_trials_then_restart) _)).
  vm_compute. reflexivity.
Defined.

(** A restart issued during the inter-trial delay leaves the pending
    timeout in place; when it fires the fresh session is moved on to its
    second trial with no result recorded. *)
Example restart_during_delay_skips_a_trial :
  results (run started restart_during_delay) = []
  /\ currentIndex (run started restart_during_delay) = 1
  /\ isWaiting (run started restart_during_delay) = false.
Proof. vm_compute. repeat split. Qed.

(** Twenty responses, each followed by the expiry of its timeout: all
    results are stored for the results page, which is navigated to; the
    index stays on the last trial. *)
Example whole_session_completes :
  length (results (run started whole_session)) = 20
  /\ currentIndex (run started whole_session) = 19
  /\ isWaiting (run started whole_session) = true
  /\ stroop_results (run started whole_session)
     = Some (results (run started whole_session))
  /\ inserted (run started whole_session) = results (run started whole_session)
  /\ route (run started whole_session) = ResultsRoute
  /\ phase (run started whole_session) = Completed.
Proof. vm_compute. repeat split. Qed.

(** C5: a response arriving while the session is not in progress, or while
    the page is waiting after a response, or right after another response,
    or in a reachable state in which all results are already recorded,
    changes nothing at all: no result, no index change, no timeout, no row
    sent, and no failure. *)
Theorem response_ignored_unless_in_progress
    (s : PageState) (response : ColorKey) (now : Qc) :
  phase s <> InProgress
  \/ isWaiting s = true
  \/ (exists s0 r0 now0, s = handleResponse r0 now0 s0)
  \/ (exists stored events,
        s = run (initial stored) events /\ TOTAL_TRIALS <= length (results s)) ->
  handleResponse response now s = s.
Proof.
  intros H. apply ignored_response.
  destruct H as [Hp|[Hw|[(s0 & r0 & now0 & ->)|(stored & events & -> & Hall)]]];
    [| | |now apply guard_closed_when_all_recorded].
  - unfold phase in Hp.
    destruct (isWaiting s); [reflexivity|].
    destruct (negb (truthy (sessionId s))); [reflexivity|].
    destruct (length (trials s) <=? currentIndex s) eqn:Hc; [reflexivity|].
    exfalso. apply Hp. simpl.
    destruct (length (trials s) =? 0) eqn:H0; [|reflexivity].
    apply Nat.eqb_eq in H0. apply Nat.leb_gt in Hc. lia.
  - now rewrite Hw.
  - apply handleResponse_guard_after.
Qed.

Lemma response_ignored_unless_in_progress_witness :
  handleResponse yellow (Qc_of_Z 750) (run started one_response)
  = run started one_response.
Proof.
  apply response_ignored_unless_in_progress.
  right. left. vm_compute. reflexivity.
Defined.

(** ** Further facts about the experiment page *)

Lemma isCorrectResponse_iff (trial : Trial) (response : ColorKey) :
  isCorrectResponse trial response = true <-> COLORS response = fontColor trial.
Proof.
  unfold isCorrectResponse. split.
  - destruct (categoryOfColor (fontColor trial)) as [c|] eqn:E; [|discriminate].
    intros Hb. apply bool_decide_eq_true in Hb. subst c.
    now apply categoryOfColor_Some.
  - intros <-. rewrite categoryOfColor_COLORS. now apply bool_decide_eq_true.
Qed.

Lemma recorded_invariant_onsetEffect (now : Qc) (old new : PageState) :
  recorded_invariant new -> recorded_invariant (onsetEffect now old new).
Proof.
  unfold recorded_invariant, onsetEffect. destruct (_ && _); page_fields; tauto.
Qed.

(** The result built by an accepted response. *)
Lemma accepted_response_result (response : ColorKey) (now : Qc) (s : PageState)
    (sid : string) (t : Trial) :
  isWaiting s || negb (truthy (sessionId s))
  || (length (trials s) <=? currentIndex s) = false ->
  sessionId s = Some sid -> trials s !! currentIndex s = Some t ->
  let result :=
    {| session_id := sid; word_text := wordText t; font_color := fontColor t;
       is_congruent := isCongruent t;
       reaction_time_ms := number_of_Z (calculateReactionTime now (startTime s));
       user_response := response;
       is_correct := isCorrectResponse t response |} in
  let s' := handleResponse response now s in
  results s' = results s ++ [result]
  /\ inserted s' = inserted s ++ [result]
  /\ sessionId s' = sessionId s /\ trials s' = trials s
  /\ stroop_session_id s' = stroop_session_id s
  /\ route s' = route s
  /\ currentIndex s' = currentIndex s
  /\ (if TOTAL_TRIALS <=? currentIndex s + 1
      then stroop_results s' = Some (results s ++ [result])
           /\ timers s' = timers s ++ [NavigateResults]
      else stroop_results s' = stroop_results s
           /\ timers s' = timers s ++ [AdvanceTrial]).
Proof.
  intros G Hsid Ht. cbv zeta. unfold handleResponse. rewrite G, Hsid, Ht.
  destruct (TOTAL_TRIALS <=? currentIndex s + 1); page_fields;
    repeat split; reflexivity.
Qed.

Lemma recorded_well_result (response : ColorKey) (now start : Qc) (sid : string)
    (t : Trial) :
  trial_well t ->
  recorded_well
    {| session_id := sid; word_text := wordText t; font_color := fontColor t;
       is_congruent := isCongruent t;
       reaction_time_ms := number_of_Z (calculateReactionTime now start);
       user_response := response;
       is_correct := isCorrectResponse t response |}.
Proof.
  intros Ht. unfold recorded_well. cbn. split; [|split].
  - eexists. split; [|reflexivity]. unfold calculateReactionTime. lia.
  - apply isCorrectResponse_iff.
  - rewrite Ht. apply String.eqb_eq.
Qed.

Lemma recorded_invariant_step (s : PageState) (e : Event) :
  reachable_invariant s -> recorded_invariant s -> recorded_invariant (step s e).
Proof.
  intros [Hlen Htr] (Hmax & [sent Hsent] & Hsid & Hwell & Htrials & Hnav).
  destruct e as [rng now|r now|sid rng now|now]; cbn [step].
  - unfold mount. destruct (truthy (stroop_session_id s)) eqn:Hst.
    + apply recorded_invariant_onsetEffect. unfold recorded_invariant.
      page_fields. split; [exact Hmax|]. split; [now exists sent|].
      split; [|split; [exact Hwell|split; [apply generateTrials_congruency|exact Hnav]]].
      destruct (stroop_session_id s) as [sid'|] eqn:Hk; [|discriminate].
      split; [reflexivity|].
      destruct (sessionId s) as [sid0|].
      * destruct Hsid as [Hk' Hall]. injection Hk' as ->. exact Hall.
      * rewrite Hsid. constructor.
    + unfold recorded_invariant. page_fields.
      split; [exact Hmax|]. split; [now exists sent|].
      split; [exact Hsid|]. split; [exact Hwell|]. split; [exact Htrials|].
      intros [Hin|Hr]; [now apply Hnav; left|discriminate].
  - destruct (isWaiting s || negb (truthy (sessionId s))
              || (length (trials s) <=? currentIndex s)) eqn:G.
    + rewrite ignored_response by exact G.
      unfold recorded_invariant. repeat split; try assumption. now exists sent.
    + destruct (guard_passed s G) as (Hw0 & [sid0 Hs0] & [t Ht]).
      destruct (accepted_response_result r now s sid0 t G Hs0 Ht)
        as (Hr & Hi & Hs' & Ht' & Hk' & Hro & Hci & Hbranch).
      set (result := {| session_id := sid0 |}) in *.
      rewrite Hw0 in Hlen. apply orb_false_elim in G as [_ Hlt].
      apply Nat.leb_gt in Hlt.
      assert (Hidx : currentIndex s < TOTAL_TRIALS) by (destruct Htr; lia).
      unfold recorded_invariant. rewrite Hr, Hi, Hs', Ht', Hk', Hro, Hs0.
      rewrite Hs0 in Hsid. destruct Hsid as [Hk Hall].
      split; [rewrite length_app; cbn [length]; lia|].
      split; [exists sent; rewrite Hsent; now rewrite app_assoc|].
      split; [split; [exact Hk|apply Forall_app; split; [exact Hall|now repeat constructor]]|].
      split.
      { apply Forall_app. split; [exact Hwell|]. constructor; [|constructor].
        apply recorded_well_result.
        apply (proj1 (Forall_forall _ _) Htrials).
        apply list_elem_of_lookup. now exists (currentIndex s). }
      split; [exact Htrials|].
      destruct (TOTAL_TRIALS <=? currentIndex s + 1);
        destruct Hbranch as [Hst Htm]; rewrite Hst, Htm.
      * intros _. eexists. split; [reflexivity|]. now destruct (results s).
      * intros [Hin|Hr']; [|now apply Hnav; right].
        apply in_app_or in Hin as [Hin|[Hin|[]]]; [now apply Hnav; left|discriminate].
  - unfold handleRestart. apply recorded_invariant_onsetEffect.
    unfold recorded_invariant. page_fields.
    split; [cbn [length]; lia|]. split; [exists (inserted s); now rewrite app_nil_r|].
    split; [split; [reflexivity|constructor]|]. split; [constructor|].
    split; [apply generateTrials_congruency|exact Hnav].
  - unfold timerFires. destruct (timers s) as [|[|] rest] eqn:Et.
    + unfold recorded_invariant. rewrite Et.
      repeat split; try assumption. now exists sent.
    + apply recorded_invariant_onsetEffect. unfold recorded_invariant.
      page_fields. split; [exact Hmax|]. split; [now exists sent|].
      split; [exact Hsid|]. split; [exact Hwell|]. split; [exact Htrials|].
      intros [Hin|Hr]; apply Hnav; [left; now right|now right].
    + unfold recorded_invariant. page_fields.
      split; [exact Hmax|]. split; [now exists sent|].
      split; [exact Hsid|]. split; [exact Hwell|]. split; [exact Htrials|].
      intros _. apply Hnav. left. now left.
Qed.

Lemma recorded_invariant_run (events : list Event) (s : PageState) :
  reachable_invariant s -> recorded_invariant s ->
  recorded_invariant (run s events).
Proof.
  revert s. induction events as [|e events IH]; intros s Hr Hinv; [exact Hinv|].
  apply (IH (step s e)).
  - now apply reachable_invariant_step.
  - now apply recorded_invariant_step.
Qed.

Lemma invariants_initial (stored : option string) :
  reachable_invariant (initial stored) /\ recorded_invariant (initial stored).
Proof.
  split; [split; cbn; [lia|now left]|].
  unfold recorded_invariant. cbn. repeat split; try constructor.
  - unfold TOTAL_TRIALS. lia.
  - now exists [].
  - intros [[]|H]; discriminate.
Qed.

Lemma recorded_invariant_reachable (stored : option string) (events : list Event) :
  recorded_invariant (run (initial stored) events).
Proof.
  destruct (invariants_initial stored) as [Hr Hi].
  now apply recorded_invariant_run.
Qed.

Lemma paced_invariant_onsetEffect (now : Qc) (old new : PageState) :
  paced_invariant new -> paced_invariant (onsetEffect now old new).
Proof.
  unfold paced_invariant, onsetEffect. destruct (_ && _); page_fields; tauto.
Qed.

Lemma existsb_advance_app (ts : list Timer) (t : Timer) :
  existsb is_advance (ts ++ [t]) = existsb is_advance ts || is_advance t.
Proof. rewrite existsb_app. cbn. now rewrite orb_false_r. Qed.

Lemma paced_invariant_step (s : PageState) (e : Event) :
  match e with
  | Restart _ _ _ => existsb is_advance (timers s) = false
  | _ => True
  end ->
  session_invariant s -> reachable_invariant s -> paced_invariant s ->
  paced_invariant (step s e).
Proof.
  intros Hcalm [Hlen Htim] [_ Htr] (Hidx & Hadv & Hst).
  destruct e as [rng now|r now|sid rng now|now]; cbn [step].
  - unfold mount. destruct (truthy (stroop_session_id s)).
    + apply paced_invariant_onsetEffect. repeat split; assumption.
    + repeat split; assumption.
  - destruct (isWaiting s || negb (truthy (sessionId s))
              || (length (trials s) <=? currentIndex s)) eqn:G.
    + rewrite ignored_response by exact G. repeat split; assumption.
    + destruct (guard_passed s G) as (Hw0 & [sid0 Hs0] & [t Ht]).
      destruct (accepted_response_result r now s sid0 t G Hs0 Ht)
        as (Hr & _ & _ & _ & _ & _ & Hci & Hbranch).
      rewrite Hw0 in Hlen, Htim.
      assert (Hnone : existsb is_advance (timers s) = false)
        by (apply filter_advance_nil_iff; lia).
      unfold paced_invariant. rewrite Hci. split; [exact Hidx|].
      destruct (TOTAL_TRIALS <=? currentIndex s + 1) eqn:Hlast;
        destruct Hbranch as [Hsr Htm]; rewrite Hsr, Htm, existsb_advance_app, Hnone.
      * split; [discriminate|]. intros rs [= <-].
        apply Nat.leb_le in Hlast. rewrite length_app. cbn [length]. lia.
      * split; [|exact Hst]. intros _. now apply Nat.leb_gt in Hlast.
  - unfold handleRestart. apply paced_invariant_onsetEffect.
    unfold paced_invariant. page_fields. rewrite Hcalm.
    split; [unfold TOTAL_TRIALS; lia|]. split; [discriminate|exact Hst].
  - unfold timerFires. destruct (timers s) as [|[|] rest] eqn:Et.
    + unfold paced_invariant. rewrite Et. repeat split; assumption.
    + apply paced_invariant_onsetEffect. unfold paced_invariant. page_fields.
      cbn in Htim.
      assert (Hrest : existsb is_advance rest = false).
      { apply filter_advance_nil_iff. destruct (isWaiting s); lia. }
      rewrite Hrest. split; [apply Hadv; reflexivity|].
      split; [discriminate|exact Hst].
    + unfold paced_invariant. page_fields.
      split; [exact Hidx|]. split; [exact Hadv|exact Hst].
Qed.

Lemma paced_invariant_run (events : list Event) (s : PageState) :
  restarts_after_timers s events = true ->
  session_invariant s -> reachable_invariant s -> paced_invariant s ->
  paced_invariant (run s events).
Proof.
  revert s. induction events as [|e events IH]; intros s Hcalm Hs Hr Hp;
    [exact Hp|].
  cbn in Hcalm. apply andb_prop in Hcalm as [He Hrest].
  assert (He' : match e with
                | Restart _ _ _ => existsb is_advance (timers s) = false
                | _ => True
                end)
    by (destruct e; try exact I; now apply negb_true_iff in He).
  apply (IH (step s e) Hrest).
  - now apply session_invariant_step.
  - now apply reachable_invariant_step.
  - now apply paced_invariant_step.
Qed.

Lemma paced_invariant_initial (stored : option string) :
  paced_invariant (initial stored).
Proof.
  unfold paced_invariant. cbn. split; [unfold TOTAL_TRIALS; lia|].
  split; discriminate.
Qed.

(** The rows sent to the remote sink only grow, by at most one row per
    response event. *)
Lemma inserted_grows_step (s : PageState) (e : Event) :
  exists more,
    inserted (step s e) = inserted s ++ more
    /\ length more <= match e with Response _ _ => 1 | _ => 0 end.
Proof.
  destruct e as [rng now|r now|sid rng now|now]; cbn [step].
  - exists []. rewrite app_nil_r. split; [|cbn; lia].
    unfold mount, onsetEffect.
    destruct (truthy _); [destruct (_ && _)|]; reflexivity.
  - destruct (isWaiting s || negb (truthy (sessionId s))
              || (length (trials s) <=? currentIndex s)) eqn:G.
    + rewrite ignored_response by exact G. exists [].
      rewrite app_nil_r. split; [reflexivity|cbn; lia].
    + destruct (guard_passed s G) as (_ & [sid0 Hs0] & [t Ht]).
      destruct (accepted_response_result r now s sid0 t G Hs0 Ht)
        as (_ & Hi & _).
      eexists. split; [exact Hi|cbn; lia].
  - exists []. rewrite app_nil_r. split; [|cbn; lia].
    unfold handleRestart, onsetEffect. destruct (_ && _); reflexivity.
  - exists []. rewrite app_nil_r. split; [|cbn; lia].
    unfold timerFires, onsetEffect.
    destruct (timers s) as [|[|] rest]; [|destruct (_ && _)|]; reflexivity.
Qed.

(** X1: however the events are interleaved, restarts during the delay
    included, the page never holds more than [TOTAL_TRIALS] results. *)
Theorem results_never_exceed_total (stored : option string) (events : list Event) :
  length (results (run (initial stored) events)) <= TOTAL_TRIALS.
Proof. apply (recorded_invariant_reachable stored events). Qed.

(** X2: every result the page holds has been handed to the remote sink:
    the result list is the tail of the rows sent. *)
Theorem results_all_sent (stored : option string) (events : list Event) :
  exists sent,
    inserted (run (initial stored) events)
    = sent ++ results (run (initial stored) events).
Proof. apply (recorded_invariant_reachable stored events). Qed.

(** X3: rows are never taken back and no event sends more than one: over
    any run from any state the rows sent before are a prefix of the rows
    sent after, and the rows added number at most the response events. *)
Theorem inserted_append_only (s : PageState) (events : list Event) :
  exists more,
    inserted (run s events) = inserted s ++ more
    /\ length more <= responses events.
Proof.
  revert s. induction events as [|e events IH]; intros s.
  - exists []. now rewrite app_nil_r.
  - destruct (inserted_grows_step s e) as (m1 & H1 & L1).
    destruct (IH (step s e)) as (m2 & H2 & L2).
    exists (m1 ++ m2). cbn [run foldl] in *. unfold run in H2.
    rewrite H2, H1, app_assoc. split; [reflexivity|].
    rewrite length_app. unfold responses in *. cbn [List.filter].
    destruct e; cbn [length] in *; lia.
Qed.

(** X4: all results the page holds belong to its current session: they
    carry the identifier in [sessionId], which is also the one kept in
    session storage; without a session there are no results. *)
Theorem results_carry_session_id (stored : option string) (events : list Event) :
  match sessionId (run (initial stored) events) with
  | Some sid =>
      stroop_session_id (run (initial stored) events) = Some sid
      /\ Forall (fun r => session_id r = sid)
           (results (run (initial stored) events))
  | None => results (run (initial stored) events) = []
  end.
Proof. apply (recorded_invariant_reachable stored events). Qed.

(** X5: every result the page records is well formed: its reaction time is
    a whole, non-negative number of milliseconds, it is marked correct
    exactly when the response is the category of the font colour, and
    congruent exactly when the word is; so the reaction times are finite. *)
Theorem results_well_formed (stored : option string) (events : list Event) :
  Forall recorded_well (results (run (initial stored) events))
  /\ finite_times (results (run (initial stored) events)).
Proof.
  assert (H : Forall recorded_well (results (run (initial stored) events)))
    by apply (recorded_invariant_reachable stored events).
  split; [exact H|]. unfold finite_times.
  eapply Forall_impl; [exact H|]. intros r ((z & _ & ->) & _). exact I.
Qed.

(** X6: the page goes to the results route only after a non-empty result
    list has been put into session storage. *)
Theorem navigation_after_store (stored : option string) (events : list Event) :
  route (run (initial stored) events) = ResultsRoute ->
  exists rs,
    stroop_results (run (initial stored) events) = Some rs /\ rs <> [].
Proof.
  intros Hr.
  destruct (recorded_invariant_reachable stored events)
    as (_ & _ & _ & _ & _ & Hnav).
  apply Hnav. now right.
Qed.

Lemma navigation_after_store_witness :
  exists rs,
    stroop_results (run (initial (Some "session-1"))
                      (Mount fixed_choices 0%Qc :: whole_session)) = Some rs
    /\ rs <> [].
Proof.
  apply (navigation_after_store (Some "session-1")
           (Mount fixed_choices 0%Qc :: whole_session)).
  vm_compute. reflexivity.
Defined.

(** X7: as long as no restart is issued during the inter-trial delay, the
    index stays below [TOTAL_TRIALS], and once the trials are loaded there
    is a current trial to show. *)
Theorem index_within_trials (stored : option string) (events : list Event) :
  restarts_after_timers (initial stored) events = true ->
  currentIndex (run (initial stored) events) < TOTAL_TRIALS
  /\ (trials (run (initial stored) events) <> [] ->
      is_Some (trials (run (initial stored) events)
                 !! currentIndex (run (initial stored) events))).
Proof.
  intros Hcalm.
  destruct (invariants_initial stored) as [Hr _].
  destruct (paced_invariant_run events (initial stored) Hcalm
              (session_invariant_initial stored) Hr
              (paced_invariant_initial stored)) as (Hidx & _).
  split; [exact Hidx|]. intros Hne. apply lookup_lt_is_Some_2.
  destruct (reachable_invariant_run events (initial stored) Hr) as [_ [H0|H20]].
  - destruct (trials (run (initial stored) events)); [congruence|discriminate].
  - now rewrite H20.
Qed.

Lemma index_within_trials_witness :
  currentIndex (run (initial (Some "session-1"))
                  (Mount fixed_choices 0%Qc :: whole_session)) < TOTAL_TRIALS.
Proof.
  refine (proj1 (index_within_trials (Some "session-1")
                   (Mount fixed_choices 0%Qc :: whole_session) _)).
  vm_compute. reflexivity.
Defined.

(** X8: as long as no restart is issued during the inter-trial delay, what
    the page leaves in session storage for the results page is a full set
    of [TOTAL_TRIALS] results. *)
Theorem stored_results_complete (stored : option string) (events : list Event)
    (rs : list (TrialResult number)) :
  restarts_after_timers (initial stored) events = true ->
  stroop_results (run (initial stored) events) = Some rs ->
  length rs = TOTAL_TRIALS.
Proof.
  intros Hcalm.
  destruct (invariants_initial stored) as [Hr _].
  destruct (paced_invariant_run events (initial stored) Hcalm
              (session_invariant_initial stored) Hr
              (paced_invariant_initial stored)) as (_ & _ & Hst).
  apply Hst.
Qed.

Lemma stored_results_complete_witness :
  length (results (run (initial (Some "session-1"))
                     (Mount fixed_choices 0%Qc :: whole_session)))
  = TOTAL_TRIALS.
Proof.
  apply (stored_results_complete (Some "session-1")
           (Mount fixed_choices 0%Qc :: whole_session)).
  - vm_compute. reflexivity.
  - vm_compute. reflexivity.
Defined.

(** The state after [handleRestart], field by field.  The onset stamp is
    renewed unless the page was already showing the first trial of a full
    trial list without waiting: then none of the values the onset effect
    depends on changes and the earlier stamp stays. *)
Lemma handleRestart_fields (sid : string) (rng : nat -> nat) (now : Qc)
    (s : PageState) :
  let s' := handleRestart sid rng now s in
  sessionId s' = Some sid /\ stroop_session_id s' = Some sid
  /\ trials s' = generateTrials rng
  /\ currentIndex s' = 0 /\ isWaiting s' = false /\ results s' = []
  /\ inserted s' = inserted s /\ timers s' = timers s
  /\ stroop_results s' = stroop_results s /\ route s' = route s
  /\ startTime s'
     = if (currentIndex s =? 0) && (length (trials s) =? TOTAL_TRIALS)
          && negb (isWaiting s)
       then startTime s else now.
Proof.
  cbv zeta. unfold handleRestart, onsetEffect. page_fields.
  rewrite generateTrials_length.
  change (0 <? TOTAL_TRIALS) with true.
  destruct (currentIndex s =? 0), (length (trials s) =? TOTAL_TRIALS),
    (isWaiting s); cbn [negb orb andb eqb]; page_fields; repeat split.
Qed.

Lemma generateTrials_first (rng : nat -> nat) :
  exists t, generateTrials rng !! 0 = Some t.
Proof.
  apply lookup_lt_is_Some_2. rewrite generateTrials_length.
  unfold TOTAL_TRIALS. lia.
Qed.

Lemma truthy_Some (sid : string) : sid <> "" -> truthy (Some sid) = true.
Proof.
  intros Hne. cbn. apply negb_true_iff. now apply String.eqb_neq.
Qed.

(** X9: a response right after a restart is always taken, whatever state
    the restart was issued in: it becomes the only result of the new
    session, under the new identifier, and is sent to the sink.  Its
    reaction time counts from the restart, except that a restart on the
    first trial of a loaded, non-waiting page keeps the earlier onset. *)
Theorem restart_reopens_session (s : PageState) (sid : string)
    (rng : nat -> nat) (t0 t1 : Qc) (r : ColorKey) :
  sid <> "" ->
  exists result,
    results (handleResponse r t1 (handleRestart sid rng t0 s)) = [result]
    /\ inserted (handleResponse r t1 (handleRestart sid rng t0 s))
       = inserted s ++ [result]
    /\ session_id result = sid
    /\ user_response result = r
    /\ reaction_time_ms result
       = number_of_Z
           (calculateReactionTime t1
              (if (currentIndex s =? 0) && (length (trials s) =? TOTAL_TRIALS)
                  && negb (isWaiting s)
               then startTime s else t0)).
Proof.
  intros Hne.
  destruct (handleRestart_fields sid rng t0 s)
    as (Hs & _ & Ht & Hi & Hw & Hr & Hins & _ & _ & _ & Hst).
  destruct (generateTrials_first rng) as [t Hfirst].
  set (s' := handleRestart sid rng t0 s) in *.
  assert (G : isWaiting s' || negb (truthy (sessionId s'))
              || (length (trials s') <=? currentIndex s') = false).
  { rewrite Hw, Hs, Hi, Ht, generateTrials_length, (truthy_Some sid Hne).
    reflexivity. }
  assert (Hl : trials s' !! currentIndex s' = Some t) by now rewrite Ht, Hi.
  destruct (accepted_response_result r t1 s' sid t G Hs Hl)
    as (Hres & Hsent & _).
  eexists. rewrite Hres, Hsent, Hr, Hins, Hst.
  repeat split; reflexivity.
Qed.

Lemma restart_reopens_session_witness :
  exists result,
    results (handleResponse yellow (Qc_of_Z 900)
               (handleRestart "session-2" fixed_choices (Qc_of_Z 800)
                  (run started one_response))) = [result]
    /\ session_id result = "session-2"
    /\ reaction_time_ms result = number_of_Z 100.
Proof.
  destruct (restart_reopens_session (run started one_response) "session-2"
              fixed_choices (Qc_of_Z 800) (Qc_of_Z 900) yellow)
    as (result & Hres & _ & Hsid & _ & Hrt); [discriminate|].
  exists result. split; [exact Hres|]. split; [exact Hsid|].
  rewrite Hrt. vm_compute. reflexivity.
Defined.

(** X10: the reaction time runs from the moment the trial came on display:
    for a response following the expiry of the inter-trial timeout it
    counts from that expiry, not from the previous response, and for the
    first response from the mount that loaded the trials. *)
Theorem reaction_time_from_onset (s : PageState) (rest : list Timer)
    (stored : option string) (rng : nat -> nat) (t0 t1 : Qc) (r : ColorKey) :
  (timers s = AdvanceTrial :: rest ->
   truthy (sessionId s) = true ->
   currentIndex s + 1 < length (trials s) ->
   exists result,
     results (handleResponse r t1 (timerFires t0 s)) = results s ++ [result]
     /\ reaction_time_ms result = number_of_Z (calculateReactionTime t1 t0))
  /\ (truthy stored = true ->
      exists result,
        results (handleResponse r t1 (mount rng t0 (initial stored))) = [result]
        /\ reaction_time_ms result
           = number_of_Z (calculateReactionTime t1 t0)).
Proof.
  split.
  - intros Htm Hsid Hidx.
    assert (Hs' : timerFires t0 s
                  = {| sessionId := sessionId s; trials := trials s;
                       currentIndex := currentIndex s + 1; isWaiting := false;
                       results := results s; startTime := t0;
                       stroop_session_id := stroop_session_id s;
                       stroop_results := stroop_results s;
                       inserted := inserted s; timers := rest;
                       route := route s |}).
    { unfold timerFires, onsetEffect. rewrite Htm. page_fields.
      assert (H1 : (currentIndex s =? currentIndex s + 1) = false)
        by (apply Nat.eqb_neq; lia).
      assert (H2 : (0 <? length (trials s)) = true) by (apply Nat.ltb_lt; lia).
      assert (H3 : (currentIndex s + 1 <? length (trials s)) = true)
        by now apply Nat.ltb_lt.
      now rewrite H1, H2, H3. }
    rewrite Hs'. clear Hs'.
    set (s' := {| sessionId := sessionId s |}).
    destruct (sessionId s) as [sid|] eqn:Hk; [|discriminate].
    destruct (lookup_lt_is_Some_2 (trials s) (currentIndex s + 1) Hidx)
      as [t Ht].
    assert (G : isWaiting s' || negb (truthy (sessionId s'))
                || (length (trials s') <=? currentIndex s') = false).
    { subst s'. page_fields. rewrite Hsid.
      cbn [negb orb]. apply Nat.leb_gt. exact Hidx. }
    destruct (accepted_response_result r t1 s' sid t G eq_refl Ht)
      as (Hres & _).
    eexists. split; [exact Hres|]. reflexivity.
  - intros Hst.
    destruct (generateTrials_first rng) as [t Hfirst].
    assert (Hs' : mount rng t0 (initial stored)
                  = {| sessionId := stored; trials := generateTrials rng;
                       currentIndex := 0; isWaiting := false;
                       results := []; startTime := t0;
                       stroop_session_id := stored; stroop_results := None;
                       inserted := []; timers := []; route := ExperimentRoute |}).
    { unfold mount, onsetEffect, initial. page_fields. rewrite Hst.
      page_fields. rewrite generateTrials_length. reflexivity. }
    rewrite Hs'. clear Hs'.
    set (s' := {| sessionId := stored |}).
    destruct stored as [sid|]; [|discriminate].
    assert (G : isWaiting s' || negb (truthy (sessionId s'))
                || (length (trials s') <=? currentIndex s') = false).
    { subst s'. page_fields. rewrite Hst, generateTrials_length. reflexivity. }
    destruct (accepted_response_result r t1 s' sid t G eq_refl Hfirst)
      as (Hres & _).
    eexists. split; [exact Hres|]. reflexivity.
Qed.

Lemma reaction_time_from_onset_witness :
  exists result,
    results (handleResponse green (Qc_of_Z 1900)
               (timerFires (Qc_of_Z 1200) (run started one_response)))
    = results (run started one_response) ++ [result]
    /\ reaction_time_ms result = number_of_Z 700.
Proof.
  destruct (proj1 (reaction_time_from_onset (run started one_response) []
                     None fixed_choices (Qc_of_Z 1200) (Qc_of_Z 1900) green))
    as (result & Hres & Hrt).
  - vm_compute. reflexivity.
  - vm_compute. reflexivity.
  - vm_compute. lia.
  - exists result. split; [exact Hres|]. rewrite Hrt. vm_compute. reflexivity.
Defined.

Lemma turned_away_step (s : PageState) (e : Event) :
  match e with Restart _ _ _ => False | _ => True end ->
  turned_away s -> turned_away (step s e).
Proof.
  intros He (Hro & Hsid & Hst & Htr & Hres & Hins & Htm).
  destruct e as [rng now|r now|sid rng now|now]; cbn [step]; [| | contradiction|].
  - unfold mount. rewrite Hst. unfold turned_away. page_fields.
    repeat split; assumption.
  - rewrite ignored_response; [repeat split; assumption|].
    rewrite Hsid. cbn [negb]. now rewrite orb_true_r.
  - unfold timerFires. rewrite Htm. repeat split; assumption.
Qed.

(** X11: a page mounted without a session identifier in session storage
    (absent or empty) is sent home and stays inert: whatever responses,
    timer expiries and further mounts follow, no trials are loaded, nothing
    is recorded, sent or scheduled. *)
Theorem no_session_no_trials (stored : option string) (rng : nat -> nat)
    (now : Qc) (events : list Event) :
  truthy stored = false -> no_restart events = true ->
  turned_away (run (initial stored) (Mount rng now :: events)).
Proof.
  intros Hst Hno.
  assert (H0 : turned_away (step (initial stored) (Mount rng now))).
  { cbn [step]. unfold mount, initial. page_fields. rewrite Hst.
    unfold turned_away. page_fields. repeat split; try reflexivity. exact Hst. }
  change (run (initial stored) (Mount rng now :: events))
    with (run (step (initial stored) (Mount rng now)) events).
  revert H0 Hno. generalize (step (initial stored) (Mount rng now)).
  induction events as [|e events IH]; intros s Hs Hno; [exact Hs|].
  cbn in Hno. apply andb_prop in Hno as [He Hrest].
  apply (IH (step s e)); [|exact Hrest].
  apply turned_away_step; [|exact Hs]. destruct e; try exact I. discriminate.
Qed.

Lemma no_session_no_trials_witness :
  turned_away
    (run (initial (Some ""))
       (Mount fixed_choices 0%Qc
        :: [Response red (Qc_of_Z 700); TimerFires (Qc_of_Z 1200)])).
Proof.
  apply no_session_no_trials; reflexivity.
Defined.

Lemma stored_well_onsetEffect (now : Qc) (old new : PageState) :
  stored_well new -> stored_well (onsetEffect now old new).
Proof.
  unfold stored_well, onsetEffect. destruct (_ && _); page_fields; tauto.
Qed.

Lemma stored_well_step (s : PageState) (e : Event) :
  reachable_invariant s -> recorded_invariant s -> stored_well s ->
  stored_well (step s e).
Proof.
  intros [Hlen Htr] (_ & _ & _ & Hwell & Htrials & _) Hst.
  destruct e as [rng now|r now|sid rng now|now]; cbn [step].
  - unfold mount. destruct (truthy (stroop_session_id s)).
    + apply stored_well_onsetEffect. exact Hst.
    + exact Hst.
  - destruct (isWaiting s || negb (truthy (sessionId s))
              || (length (trials s) <=? currentIndex s)) eqn:G.
    + now rewrite ignored_response.
    + destruct (guard_passed s G) as (Hw0 & [sid0 Hs0] & [t Ht]).
      destruct (accepted_response_result r now s sid0 t G Hs0 Ht)
        as (_ & _ & _ & _ & _ & _ & _ & Hbranch).
      rewrite Hw0 in Hlen. apply orb_false_elim in G as [_ Hlt].
      apply Nat.leb_gt in Hlt.
      unfold stored_well.
      destruct (TOTAL_TRIALS <=? currentIndex s + 1);
        destruct Hbranch as [Hsr _]; rewrite Hsr; [|exact Hst].
      intros rs [= <-]. split.
      * apply Forall_app. split; [exact Hwell|].
        constructor; [|constructor]. apply recorded_well_result.
        apply (proj1 (Forall_forall _ _) Htrials).
        apply list_elem_of_lookup. now exists (currentIndex s).
      * rewrite length_app. cbn [length]. destruct Htr; lia.
  - unfold handleRestart. apply stored_well_onsetEffect. exact Hst.
  - unfold timerFires. destruct (timers s) as [|[|] rest].
    + exact Hst.
    + apply stored_well_onsetEffect. exact Hst.
    + exact Hst.
Qed.

Lemma stored_well_reachable (stored : option string) (events : list Event) :
  stored_well (run (initial stored) events).
Proof.
  destruct (invariants_initial stored) as [Hr Hi].
  assert (H0 : stored_well (initial stored)) by (intros rs; discriminate).
  revert Hr Hi H0. generalize (initial stored).
  induction events as [|e events IH]; intros s Hr Hi H0; [exact H0|].
  apply (IH (step s e)).
  - now apply reachable_invariant_step.
  - now apply recorded_invariant_step.
  - now apply stored_well_step.
Qed.

Lemma recorded_well_finite (rs : list (TrialResult number)) :
  Forall recorded_well rs -> finite_times rs.
Proof.
  intros H. unfold finite_times. eapply Forall_impl; [exact H|].
  intros r ((z & _ & ->) & _). exact I.
Qed.

(** ** Rounding for display *)

Lemma this_plus (x y : Qc) : (this (x + y)%Qc == this x + this y)%Q.
Proof. unfold Qcplus, Q2Qc. cbn [this]. apply Qred_correct. Qed.

Lemma this_minus (x y : Qc) : (this (x - y)%Qc == this x - this y)%Q.
Proof.
  unfold Qcminus, Qcplus, Qcopp, Q2Qc. cbn [this].
  rewrite !Qred_correct. reflexivity.
Qed.

Lemma this_mult (x y : Qc) : (this (x * y)%Qc == this x * this y)%Q.
Proof. unfold Qcmult, Q2Qc. cbn [this]. apply Qred_correct. Qed.

Lemma Math_round_bounds (x : Qc) :
  (inject_Z (Math_round x) - (1 # 2) <= this x)%Q
  /\ (this x < inject_Z (Math_round x) + (1 # 2))%Q.
Proof.
  unfold Math_round.
  pose proof (Qfloor_le (this (x + Q2Qc (1 # 2))%Qc)) as Hl.
  pose proof (Qlt_floor (this (x + Q2Qc (1 # 2))%Qc)) as Hu.
  set (z := Qfloor _) in *.
  rewrite this_plus in Hl, Hu.
  change (this (Q2Qc (1 # 2))) with (1 # 2)%Q in Hl, Hu.
  rewrite inject_Z_plus in Hu. change (inject_Z 1) with 1%Q in Hu.
  split; lra.
Qed.

Lemma Math_round_difference (a b : Qc) :
  (Math_round b - Math_round a - 1 <= Math_round (b - a)%Qc
   <= Math_round b - Math_round a + 1)%Z.
Proof.
  destruct (Math_round_bounds a) as [Ha1 Ha2].
  destruct (Math_round_bounds b) as [Hb1 Hb2].
  destruct (Math_round_bounds (b - a)%Qc) as [Hd1 Hd2].
  rewrite this_minus in Hd1, Hd2.
  set (ra := Math_round a) in *. set (rb := Math_round b) in *.
  set (rd := Math_round (b - a)%Qc) in *.
  assert (H1 : (inject_Z rd < inject_Z (rb - ra + 2))%Q).
  { rewrite inject_Z_plus. unfold Z.sub. rewrite inject_Z_plus, inject_Z_opp.
    change (inject_Z 2) with 2%Q. lra. }
  assert (H2 : (inject_Z (rb - ra - 2) < inject_Z rd)%Q).
  { unfold Z.sub. rewrite !inject_Z_plus, !inject_Z_opp.
    change (inject_Z 2) with 2%Q. lra. }
  rewrite <- Zlt_Qlt in H1, H2. lia.
Qed.

Lemma Math_round_mono (x y : Qc) :
  (x <= y)%Qc -> (Math_round x <= Math_round y)%Z.
Proof.
  intros H. unfold Math_round. apply Qfloor_resp_le.
  rewrite !this_plus. unfold Qcle in H. lra.
Qed.

Lemma Math_round_of_Z (z : Z) : Math_round (Qc_of_Z z) = z.
Proof.
  destruct (Math_round_bounds (Qc_of_Z z)) as [H1 H2].
  change (this (Qc_of_Z z)) with (inject_Z z) in H1, H2.
  set (r := Math_round (Qc_of_Z z)) in *.
  assert (Ha : (inject_Z r < inject_Z (z + 1))%Q).
  { rewrite inject_Z_plus. change (inject_Z 1) with 1%Q. lra. }
  assert (Hb : (inject_Z (z - 1) < inject_Z r)%Q).
  { unfold Z.sub. rewrite inject_Z_plus, inject_Z_opp.
    change (inject_Z (-1)) with (- (1))%Q. change (inject_Z 1) with 1%Q. lra. }
  rewrite <- Zlt_Qlt in Ha, Hb. lia.
Qed.

(** The accuracy of a non-empty result list is a finite number between 0
    and 100. *)
Lemma accuracy_range (rs : list (TrialResult number)) :
  rs <> [] ->
  exists q, accuracy (calculateSummary rs) = Num q
            /\ (Qc_of_Z 0 <= q)%Qc /\ (q <= Qc_of_Z 100)%Qc.
Proof.
  intros Hne. eexists. split; [apply accuracy_nonempty, Hne|].
  destruct rs as [|r rs]; [congruence|].
  set (c := spec_count _ _). cbn [length].
  assert (Hc : c <= S (length rs)) by apply spec_count_le_length.
  pose proof (Qc_of_nat_pos (length rs)) as Hn.
  pose proof (Qcinv_pos _ Hn) as Hi.
  assert (H0 : (0 <= Qc_of_nat c / Qc_of_nat (S (length rs)))%Qc).
  { apply Qcmult_nonneg_nonneg; [apply Qc_of_nat_nonneg|].
    apply Qclt_le_weak, Hi. }
  assert (H1 : (Qc_of_nat c / Qc_of_nat (S (length rs)) <= 1)%Qc).
  { rewrite <- (Qcmult_inv_r (Qc_of_nat (S (length rs))))
      by apply Qc_of_nat_S_neq.
    apply Qcmult_le_compat_r; [apply Qc_of_nat_le, Hc|].
    apply Qclt_le_weak, Hi. }
  split.
  - rewrite Z2Qc_inj_0.
    apply Qcmult_nonneg_nonneg; [exact H0|apply Qc_of_nat_nonneg].
  - change (Qc_of_Z 100) with (Qc_of_nat 100).
    rewrite <- (Qcmult_1_l (Qc_of_nat 100)) at 2.
    apply Qcmult_le_compat_r; [exact H1|apply Qc_of_nat_nonneg].
Qed.

Lemma summary_finite (rs : list (TrialResult number)) :
  finite_times rs ->
  congruentAvg (calculateSummary rs) = Num (spec_mean congruent_correct rs)
  /\ incongruentAvg (calculateSummary rs)
     = Num (spec_mean incongruent_correct rs)
  /\ stroopEffect (calculateSummary rs)
     = Num (spec_mean incongruent_correct rs - spec_mean congruent_correct rs)%Qc.
Proof.
  intros F. unfold calculateSummary, congruentAvg, incongruentAvg, stroopEffect.
  rewrite (calculateAverage_filter
             (fun r => is_congruent r && is_correct r) rs F).
  rewrite (calculateAverage_filter
             (fun r => negb (is_congruent r) && is_correct r) rs F).
  repeat split.
Qed.

(** X12: for a non-empty result list the accuracy card shows a whole
    number between 0 and 100. *)
Theorem accuracy_card_is_percentage (rs : list (TrialResult number)) :
  rs <> [] ->
  exists z : Z,
    accuracyCard (statCards (calculateSummary rs)) = number_of_Z z
    /\ (0 <= z <= 100)%Z.
Proof.
  intros Hne. destruct (accuracy_range rs Hne) as (q & Hq & H0 & H100).
  exists (Math_round q). unfold statCards. cbn [accuracyCard].
  rewrite Hq. split; [reflexivity|].
  apply Math_round_mono in H0, H100. rewrite Math_round_of_Z in H0, H100. lia.
Qed.

Lemma accuracy_card_is_percentage_witness :
  exists z : Z,
    accuracyCard
      (statCards
         (calculateSummary
            [result_of true true (number_of_Z 450);
             result_of false false (number_of_Z 700);
             result_of false true (number_of_Z 610)])) = number_of_Z z
    /\ (0 <= z <= 100)%Z.
Proof. apply accuracy_card_is_percentage. discriminate. Defined.

(** X13: the three timing cards are rounded separately, so the Stroop
    effect shown can differ from the difference of the two means shown, but
    never by more than one millisecond. *)
Theorem effect_card_near_difference (rs : list (TrialResult number)) :
  finite_times rs ->
  exists c i e : Z,
    congruentCard (statCards (calculateSummary rs)) = number_of_Z c
    /\ incongruentCard (statCards (calculateSummary rs)) = number_of_Z i
    /\ effectCard (statCards (calculateSummary rs)) = number_of_Z e
    /\ (i - c - 1 <= e <= i - c + 1)%Z.
Proof.
  intros F. destruct (summary_finite rs F) as (Hc & Hi & He).
  unfold statCards. cbn [congruentCard incongruentCard effectCard].
  rewrite Hc, Hi, He. do 3 eexists. repeat split.
  - apply Math_round_difference.
  - apply Math_round_difference.
Qed.

Lemma effect_card_near_difference_witness :
  exists c i e : Z,
    congruentCard
      (statCards
         (calculateSummary
            [result_of true true (number_of_Z 400);
             result_of true true (number_of_Z 401);
             result_of false true (number_of_Z 550)])) = number_of_Z c
    /\ incongruentCard
         (statCards
            (calculateSummary
               [result_of true true (number_of_Z 400);
                result_of true true (number_of_Z 401);
                result_of false true (number_of_Z 550)])) = number_of_Z i
    /\ effectCard
         (statCards
            (calculateSummary
               [result_of true true (number_of_Z 400);
                result_of true true (number_of_Z 401);
                result_of false true (number_of_Z 550)])) = number_of_Z e
    /\ (i - c - 1 <= e <= i - c + 1)%Z.
Proof. apply effect_card_near_difference. repeat constructor. Defined.

(** The cards of three results whose congruent mean is 400.5: the means
    show as 401 and 550, the effect as 150. *)
Example effect_card_off_by_one :
  statCards
    (calculateSummary
       [result_of true true (number_of_Z 400);
        result_of true true (number_of_Z 401);
        result_of false true (number_of_Z 550)])
  = {| congruentCard := number_of_Z 401; incongruentCard := number_of_Z 550;
       effectCard := number_of_Z 150;
       accuracyCard := number_of_Z 100 |}.
Proof. vm_compute. reflexivity. Qed.

Lemma number_gtb_Num (p q : Qc) :
  number_gtb (Num p) (Num q) = true <-> (q < p)%Qc.
Proof.
  cbn. split.
  - destruct (p ?= q)%Qc eqn:E; try discriminate. intros _.
    now apply Qcgt_alt.
  - intros H. apply Qcgt_alt in H. now rewrite H.
Qed.

Lemma number_gtb_Num_false (p q : Qc) :
  number_gtb (Num p) (Num q) = false -> (p <= q)%Qc.
Proof.
  intros H. apply Qcnot_lt_le. intros Hlt.
  apply number_gtb_Num in Hlt. congruence.
Qed.

(** X14: the wording under the chart is chosen from the unrounded effect
    and agrees with the rounded figure beside it up to the thresholds:
    "typical" goes with a figure of at least 100, "moderate" with one from
    50 to 100, "quite low" with one of at most 50. *)
Theorem interference_matches_card (rs : list (TrialResult number)) :
  finite_times rs ->
  exists e : Z,
    effectCard (statCards (calculateSummary rs)) = number_of_Z e
    /\ match interference (calculateSummary rs) with
       | Typical => (100 <= e)%Z
       | Moderate => (50 <= e <= 100)%Z
       | QuiteLow => (e <= 50)%Z
       end.
Proof.
  intros F. destruct (summary_finite rs F) as (_ & _ & He).
  unfold statCards, interference. cbn [effectCard]. rewrite He.
  set (d := (_ - _)%Qc). exists (Math_round d). split; [reflexivity|].
  change (@of_nat number _ 100) with (Num (Qc_of_Z 100)).
  change (@of_nat number _ 50) with (Num (Qc_of_Z 50)).
  destruct (number_gtb (Num d) (Num (Qc_of_Z 100))) eqn:H100.
  - apply number_gtb_Num, Qclt_le_weak, Math_round_mono in H100.
    now rewrite Math_round_of_Z in H100.
  - apply number_gtb_Num_false, Math_round_mono in H100.
    rewrite Math_round_of_Z in H100.
    destruct (number_gtb (Num d) (Num (Qc_of_Z 50))) eqn:H50.
    + apply number_gtb_Num, Qclt_le_weak, Math_round_mono in H50.
      rewrite Math_round_of_Z in H50. lia.
    + apply number_gtb_Num_false, Math_round_mono in H50.
      now rewrite Math_round_of_Z in H50.
Qed.

Lemma interference_matches_card_witness :
  exists e : Z,
    effectCard
      (statCards
         (calculateSummary
            [result_of true true (number_of_Z 400);
             result_of false true (number_of_Z 550)])) = number_of_Z e
    /\ match interference
               (calculateSummary
                  [result_of true true (number_of_Z 400);
                   result_of false true (number_of_Z 550)]) with
       | Typical => (100 <= e)%Z
       | Moderate => (50 <= e <= 100)%Z
       | QuiteLow => (e <= 50)%Z
       end.
Proof. apply interference_matches_card. repeat constructor. Defined.

(** X15: when the experiment page has gone to the results route, the
    results page finds a stored list it can summarise: between 1 and
    [TOTAL_TRIALS] results, every figure of the summary finite, the accuracy
    between 0 and 100, shown under the session identifier of the
    experiment page. *)
Theorem completed_session_summary (stored : option string) (events : list Event) :
  route (run (initial stored) events) = ResultsRoute ->
  exists sm,
    resultsPageMount
      (ParsedResults <$> stroop_results (run (initial stored) events))
      (stroop_session_id (run (initial stored) events))
    = {| summary := Some sm;
         pageSessionId := stroop_session_id (run (initial stored) events);
         pageRoute := ResultsRoute |}
    /\ 1 <= totalTrials sm <= TOTAL_TRIALS
    /\ is_finite (congruentAvg sm) /\ is_finite (incongruentAvg sm)
    /\ is_finite (stroopEffect sm)
    /\ exists q, accuracy sm = Num q
                 /\ (Qc_of_Z 0 <= q)%Qc /\ (q <= Qc_of_Z 100)%Qc.
Proof.
  intros Hr.
  destruct (recorded_invariant_reachable stored events)
    as (_ & _ & _ & _ & _ & Hnav).
  destruct Hnav as (rs & Hrs & Hne); [now right|].
  destruct (stored_well_reachable stored events rs Hrs) as [Hwell Hlen].
  pose proof (recorded_well_finite rs Hwell) as F.
  destruct (summary_finite rs F) as (Hc & Hi & He).
  exists (calculateSummary rs). rewrite Hrs. cbn [fmap option_fmap option_map].
  split; [reflexivity|]. rewrite Hc, Hi, He.
  split; [|repeat split; try exact I; now apply accuracy_range].
  cbn [totalTrials calculateSummary]. destruct rs; [congruence|]. cbn [length] in *. lia.
Qed.

Lemma completed_session_summary_witness :
  exists sm,
    summary
      (resultsPageMount
         (ParsedResults
            <$> stroop_results
                  (run (initial (Some "session-1"))
                     (Mount fixed_choices 0%Qc :: whole_session)))
         (stroop_session_id
            (run (initial (Some "session-1"))
               (Mount fixed_choices 0%Qc :: whole_session)))) = Some sm
    /\ 1 <= totalTrials sm <= TOTAL_TRIALS.
Proof.
  destruct (completed_session_summary (Some "session-1")
              (Mount fixed_choices 0%Qc :: whole_session))
    as (sm & Hsm & Htot & _).
  - vm_compute. reflexivity.
  - exists sm. rewrite Hsm. split; [reflexivity|exact Htot].
Defined.

(** ** Means lie between the extremes *)

Lemma this_div (x y : Qc) : (this (x / y)%Qc == this x / this y)%Q.
Proof.
  unfold Qcdiv, Qcinv, Q2Qc. rewrite this_mult. cbn [this].
  rewrite Qred_correct. reflexivity.
Qed.

Lemma this_of_nat_S (n : nat) :
  (this (Qc_of_nat (S n)) == this (Qc_of_nat n) + 1)%Q.
Proof.
  unfold Qc_of_nat. change (this (Qc_of_Z ?z)) with (inject_Z z).
  rewrite Nat2Z.inj_succ, <- Z.add_1_r, inject_Z_plus. reflexivity.
Qed.

Lemma spec_sum_bounds (P : TrialResult number -> bool)
    (rs : list (TrialResult number)) (lo hi : Qc) :
  Forall (fun r => P r = true ->
                   (lo <= finite_part (reaction_time_ms r))%Qc
                   /\ (finite_part (reaction_time_ms r) <= hi)%Qc) rs ->
  (this (Qc_of_nat (spec_count P rs)) * this lo <= this (spec_sum P rs))%Q
  /\ (this (spec_sum P rs) <= this (Qc_of_nat (spec_count P rs)) * this hi)%Q.
Proof.
  induction 1 as [|r rs Hr _ IH]; cbn [spec_count spec_sum].
  - change (this (Qc_of_nat 0)) with 0%Q. change (this 0%Qc) with 0%Q. lra.
  - destruct (P r); [|exact IH].
    destruct (Hr eq_refl) as [Hl Hh]. unfold Qcle in Hl, Hh.
    rewrite this_plus, this_of_nat_S. lra.
Qed.

Lemma spec_mean_bounds (P : TrialResult number -> bool)
    (rs : list (TrialResult number)) (lo hi : Qc) :
  Forall (fun r => P r = true ->
                   (lo <= finite_part (reaction_time_ms r))%Qc
                   /\ (finite_part (reaction_time_ms r) <= hi)%Qc) rs ->
  spec_count P rs <> 0 ->
  (lo <= spec_mean P rs)%Qc /\ (spec_mean P rs <= hi)%Qc.
Proof.
  intros Hall Hn. destruct (spec_sum_bounds P rs lo hi Hall) as [Hl Hh].
  unfold spec_mean. destruct (spec_count P rs) as [|n]; [congruence|].
  pose proof (Qc_of_nat_pos n) as Hpos. unfold Qclt in Hpos.
  change (this 0%Qc) with 0%Q in Hpos.
  unfold Qcle. rewrite this_div. split.
  - apply Qle_shift_div_l; [exact Hpos|]. lra.
  - apply Qle_shift_div_r; [exact Hpos|]. lra.
Qed.



(** The same three results on binary64: the means are 400.5 and 550, the
    effect 149.5, all inside the bounds. *)
Example means_between_extremes_binary64 :
  calculateSummary
    [result_of true true (float_of_Z 400);
     result_of true true (float_of_Z 401);
     result_of false true (float_of_Z 550)]
  = {| congruentAvg := 400.5%float; incongruentAvg := 550%float;
       stroopEffect := 149.5%float; totalTrials := 3; correctTrials := 3;
       accuracy := 100%float |}.
Proof. vm_compute. reflexivity. Qed.

(** ** The test helpers *)

Lemma sumTimes_map (l : list (TrialResult number)) :
  TestHelpers.sumTimes l = foldl add (of_nat 0) (map reaction_time_ms l).
Proof.
  unfold TestHelpers.sumTimes. generalize (@of_nat number _ 0).
  induction l as [|r l IH]; intros a; cbn [foldl map]; [reflexivity|apply IH].
Qed.

Lemma calculateAverage_nonempty (l : list (TrialResult number)) :
  l <> [] ->
  calculateAverage (map reaction_time_ms l)
  = div (TestHelpers.sumTimes l) (of_nat (length l)).
Proof.
  intros Hne. rewrite sumTimes_map. destruct l as [|r l]; [congruence|].
  unfold calculateAverage. cbn [map]. cbn [length]. now rewrite length_map.
Qed.

Lemma filter_nonempty (P : TrialResult number -> bool)
    (rs : list (TrialResult number)) :
  spec_count P rs <> 0 -> List.filter P rs <> [].
Proof.
  rewrite <- filter_spec_count. now destruct (List.filter P rs).
Qed.

Lemma filter_empty (P : TrialResult number -> bool)
    (rs : list (TrialResult number)) :
  spec_count P rs = 0 -> List.filter P rs = [].
Proof.
  rewrite <- filter_spec_count. now destruct (List.filter P rs).
Qed.

Lemma number_add_NaN_r (x : number) : number_add x NaN = NaN.
Proof. now destruct x. Qed.

(** X17: when at least one correct congruent and one correct incongruent
    result are present, what [calculateExpectedStats] expects is exactly
    what the results page shows: the four rounded figures and the two
    counts. *)
Theorem expected_stats_match_cards (rs : list (TrialResult number)) :
  spec_count congruent_correct rs <> 0 ->
  spec_count incongruent_correct rs <> 0 ->
  TestHelpers.congruentMean (TestHelpers.calculateExpectedStats rs)
  = congruentCard (statCards (calculateSummary rs))
  /\ TestHelpers.incongruentMean (TestHelpers.calculateExpectedStats rs)
     = incongruentCard (statCards (calculateSummary rs))
  /\ TestHelpers.stroopEffect (TestHelpers.calculateExpectedStats rs)
     = effectCard (statCards (calculateSummary rs))
  /\ TestHelpers.accuracy (TestHelpers.calculateExpectedStats rs)
     = accuracyCard (statCards (calculateSummary rs))
  /\ TestHelpers.totalTrials (TestHelpers.calculateExpectedStats rs)
     = totalTrials (calculateSummary rs)
  /\ TestHelpers.correctTrials (TestHelpers.calculateExpectedStats rs)
     = correctTrials (calculateSummary rs).
Proof.
  intros Hc Hi.
  apply (filter_nonempty congruent_correct) in Hc.
  apply (filter_nonempty incongruent_correct) in Hi.
  unfold congruent_correct in Hc. unfold incongruent_correct in Hi.
  unfold TestHelpers.calculateExpectedStats, statCards, calculateSummary.
  cbn [TestHelpers.congruentMean TestHelpers.incongruentMean
       TestHelpers.stroopEffect TestHelpers.accuracy TestHelpers.totalTrials
       TestHelpers.correctTrials congruentCard incongruentCard effectCard
       accuracyCard congruentAvg incongruentAvg stroopEffect accuracy
       totalTrials correctTrials].
  rewrite (calculateAverage_nonempty _ Hc), (calculateAverage_nonempty _ Hi).
  repeat split.
Qed.

Lemma expected_stats_match_cards_witness :
  TestHelpers.stroopEffect
    (TestHelpers.calculateExpectedStats
       [result_of true true (number_of_Z 400);
        result_of true true (number_of_Z 401);
        result_of false true (number_of_Z 550)])
  = effectCard
      (statCards
         (calculateSummary
            [result_of true true (number_of_Z 400);
             result_of true true (number_of_Z 401);
             result_of false true (number_of_Z 550)])).
Proof.
  refine (proj1 (proj2 (proj2 (expected_stats_match_cards _ _ _)))).
  - vm_compute. discriminate.
  - vm_compute. discriminate.
Defined.

(** X18: when no congruent result is correct the overall means of
    [calculateExpectedStats] are an unguarded [0 / 0]: its congruent mean
    and its Stroop effect are [NaN], whereas the page shows 0 for the
    congruent mean; only the per-word means of the helper are guarded and
    come out as 0. *)
Theorem expected_stats_without_congruent (rs : list (TrialResult number)) :
  spec_count congruent_correct rs = 0 ->
  TestHelpers.congruentMean (TestHelpers.calculateExpectedStats rs) = NaN
  /\ TestHelpers.stroopEffect (TestHelpers.calculateExpectedStats rs) = NaN
  /\ congruentCard (statCards (calculateSummary rs)) = number_of_Z 0
  /\ Forall (fun ws => TestHelpers.WordStats.congruentMean ws.2 = number_of_Z 0)
       (TestHelpers.wordStats (TestHelpers.calculateExpectedStats rs)).
Proof.
  intros Hc. apply (filter_empty congruent_correct) in Hc.
  unfold congruent_correct in Hc.
  unfold TestHelpers.calculateExpectedStats, statCards, calculateSummary.
  cbn [TestHelpers.congruentMean TestHelpers.stroopEffect TestHelpers.wordStats
       congruentCard congruentAvg].
  rewrite Hc. cbn [map length TestHelpers.sumTimes foldl calculateAverage].
  assert (Hnan : @div number _ (of_nat 0) (of_nat 0) = NaN) by reflexivity.
  rewrite Hnan. split; [reflexivity|]. split.
  - change (@sub number _ ?a NaN) with (number_add a (number_neg NaN)).
    cbn [number_neg]. now rewrite number_add_NaN_r.
  - split; [reflexivity|].
    apply Forall_forall. intros [w st] Hin.
    apply list_elem_of_In, in_map_iff in Hin. destruct Hin as (w' & [= <- <-] & _).
    unfold TestHelpers.wordStat. cbn [snd TestHelpers.WordStats.congruentMean].
    assert (He : List.filter
                   (fun r => bool_decide (word_text r = w') && is_congruent r
                             && is_correct r) rs = []).
    { clear Hnan. induction rs as [|r rs IH]; [reflexivity|].
      cbn [List.filter] in *.
      destruct (is_congruent r && is_correct r) eqn:E; [discriminate|].
      rewrite <- andb_assoc, E, andb_false_r. apply IH, Hc. }
    rewrite He. reflexivity.
Qed.

Lemma expected_stats_without_congruent_witness :
  TestHelpers.congruentMean
    (TestHelpers.calculateExpectedStats
       [result_of true false (number_of_Z 480);
        result_of false true (number_of_Z 640)]) = NaN
  /\ congruentCard
       (statCards
          (calculateSummary
             [result_of true false (number_of_Z 480);
              result_of false true (number_of_Z 640)])) = number_of_Z 0.
Proof.
  destruct (expected_stats_without_congruent
              [result_of true false (number_of_Z 480);
               result_of false true (number_of_Z 640)])
    as (H1 & _ & H3 & _); [reflexivity|].
  split; assumption.
Defined.

Lemma nextWord_other (w : ColorKey) : COLORS (TestHelpers.nextWord w) <> COLORS w.
Proof. destruct w; vm_compute; discriminate. Qed.

Lemma congruentResult_consistent (rand : nat -> Qc) (sid : string)
    (cm cv er : Qc) (i : nat) :
  consistent (TestHelpers.congruentResult rand sid cm cv er i).
Proof.
  unfold consistent, TestHelpers.congruentResult.
  cbn [is_congruent is_correct word_text font_color user_response].
  split; [tauto|].
  destruct (TestHelpers.gt _ _); [tauto|].
  split; [discriminate|]. intros E. now apply nextWord_other in E.
Qed.

Lemma incongruentResult_consistent (rand : nat -> Qc) (sid : string)
    (im iv er : Qc) (n i : nat) :
  consistent (TestHelpers.incongruentResult rand sid im iv er n i).
Proof.
  unfold consistent, TestHelpers.incongruentResult.
  cbn [is_congruent is_correct word_text font_color user_response].
  split.
  - split; [discriminate|]. intros E. symmetry in E.
    now apply nextWord_other in E.
  - destruct (TestHelpers.gt _ _); [tauto|].
    split; [discriminate|]. intros E. symmetry in E.
    now apply nextWord_other in E.
Qed.

(** A draw in the unit interval moves the time by at most the variance. *)
Lemma jitter_within (m v x : Qc) :
  (0 <= x)%Qc -> (x < 1)%Qc -> (0 <= v)%Qc ->
  (m - v <= m + (x - Q2Qc (1 # 2)) * Qc_of_Z 2 * v)%Qc
  /\ (m + (x - Q2Qc (1 # 2)) * Qc_of_Z 2 * v <= m + v)%Qc.
Proof.
  unfold Qcle, Qclt. intros H0 H1 Hv.
  change (this 0%Qc) with 0%Q in *. change (this 1%Qc) with 1%Q in *.
  rewrite this_minus, !this_plus, !this_mult, this_minus.
  change (this (Q2Qc (1 # 2))) with (1 # 2)%Q.
  change (this (Qc_of_Z 2)) with 2%Q.
  assert (Ha : (0 <= this x * this v)%Q) by now apply Qmult_le_0_compat.
  assert (Hb : (0 <= (1 - this x) * this v)%Q)
    by (apply Qmult_le_0_compat; [lra|exact Hv]).
  split; lra.
Qed.

Lemma mock_results_unfold (rand : nat -> Qc) (sid : string)
    (o : TestHelpers.Options.t) :
  TestHelpers.generateMockResults rand sid o
  = map (TestHelpers.congruentResult rand sid (mock_congruentMean o)
           (mock_congruentVariance o) (mock_errorRate o))
      (seq 0 (mock_trialsPerCondition o))
    ++ map (TestHelpers.incongruentResult rand sid (mock_incongruentMean o)
              (mock_incongruentVariance o) (mock_errorRate o)
              (mock_trialsPerCondition o))
         (seq 0 (mock_trialsPerCondition o)).
Proof. reflexivity. Qed.

Lemma Forall_mock_results (Q : TrialResult number -> Prop) (rand : nat -> Qc)
    (sid : string) (o : TestHelpers.Options.t) :
  (forall i, Q (TestHelpers.congruentResult rand sid (mock_congruentMean o)
                  (mock_congruentVariance o) (mock_errorRate o) i)) ->
  (forall i, Q (TestHelpers.incongruentResult rand sid (mock_incongruentMean o)
                  (mock_incongruentVariance o) (mock_errorRate o)
                  (mock_trialsPerCondition o) i)) ->
  Forall Q (TestHelpers.generateMockResults rand sid o).
Proof.
  intros Hc Hi. rewrite mock_results_unfold. apply Forall_app. split;
    apply Forall_forall; intros r Hr;
    apply list_elem_of_In, in_map_iff in Hr; destruct Hr as (i & <- & _);
    [apply Hc|apply Hi].
Qed.

(** X19: the mock results have the shape and the consistency of real ones:
    [trialsPerCondition] congruent results followed by as many incongruent
    ones, all under the given session identifier, each flagged congruent
    exactly when the word's colour is the font colour and correct exactly
    when the response's colour is. *)
Theorem mock_results_well_formed (rand : nat -> Qc) (sid : string)
    (o : TestHelpers.Options.t) :
  length (TestHelpers.generateMockResults rand sid o)
  = 2 * mock_trialsPerCondition o
  /\ Forall (fun r => is_congruent r = true)
       (take (mock_trialsPerCondition o)
          (TestHelpers.generateMockResults rand sid o))
  /\ Forall (fun r => is_congruent r = false)
       (drop (mock_trialsPerCondition o)
          (TestHelpers.generateMockResults rand sid o))
  /\ Forall (fun r => session_id r = sid)
       (TestHelpers.generateMockResults rand sid o)
  /\ Forall consistent (TestHelpers.generateMockResults rand sid o).
Proof.
  split; [|split; [|split; [|split]]].
  - rewrite mock_results_unfold, length_app, !length_map, !length_seq. lia.
  - rewrite mock_results_unfold, take_app_length'
      by now rewrite length_map, length_seq.
    apply Forall_forall. intros r Hr.
    apply list_elem_of_In, in_map_iff in Hr. now destruct Hr as (i & <- & _).
  - rewrite mock_results_unfold, drop_app_length'
      by now rewrite length_map, length_seq.
    apply Forall_forall. intros r Hr.
    apply list_elem_of_In, in_map_iff in Hr. now destruct Hr as (i & <- & _).
  - now apply Forall_mock_results.
  - apply Forall_mock_results; intros i;
      [apply congruentResult_consistent|apply incongruentResult_consistent].
Qed.

Lemma mock_within_band (rand : nat -> Qc) (sid : string)
    (o : TestHelpers.Options.t) :
  unit_draws rand ->
  (0 <= mock_congruentVariance o)%Qc -> (0 <= mock_incongruentVariance o)%Qc ->
  Forall (within_band o) (TestHelpers.generateMockResults rand sid o).
Proof.
  intros Hu Hcv Hiv. apply Forall_mock_results; intros i; unfold within_band;
    eexists; (split; [reflexivity|]); cbn [is_congruent].
  - destruct (Hu (2 * i)) as [H0 H1].
    destruct (jitter_within (mock_congruentMean o) (mock_congruentVariance o)
                _ H0 H1 Hcv) as [Hl Hh].
    split; now apply Math_round_mono.
  - destruct (Hu (2 * mock_trialsPerCondition o + 2 * i)) as [H0 H1].
    destruct (jitter_within (mock_incongruentMean o)
                (mock_incongruentVariance o) _ H0 H1 Hiv) as [Hl Hh].
    split; now apply Math_round_mono.
Qed.

(** X20: with draws in the unit interval and variances that are not
    negative, every mock reaction time is a whole number inside the rounded
    band [mean - variance, mean + variance] of its condition. *)
Theorem mock_times_within_variance (rand : nat -> Qc) (sid : string)
    (o : TestHelpers.Options.t) :
  unit_draws rand ->
  (0 <= mock_congruentVariance o)%Qc -> (0 <= mock_incongruentVariance o)%Qc ->
  Forall (within_band o) (TestHelpers.generateMockResults rand sid o).
Proof. apply mock_within_band. Qed.

Lemma half_unit_draws : unit_draws (fun _ => Q2Qc (1 # 2)).
Proof.
  intros k. split; unfold Qcle, Qclt; vm_compute; [discriminate|reflexivity].
Qed.

Lemma mock_times_within_variance_witness :
  Forall (within_band TestHelpers.Options.empty)
    (TestHelpers.generateMockResults (fun _ => Q2Qc (1 # 2)) "s"
       TestHelpers.Options.empty).
Proof.
  apply mock_times_within_variance.
  - apply half_unit_draws.
  - unfold Qcle. vm_compute. discriminate.
  - unfold Qcle. vm_compute. discriminate.
Defined.

Lemma gt_true (x y : Qc) : TestHelpers.gt x y = true <-> (y < x)%Qc.
Proof.
  unfold TestHelpers.gt. split.
  - destruct (x ?= y)%Qc eqn:E; try discriminate. intros _. now apply Qcgt_alt.
  - intros H. apply Qcgt_alt in H. now rewrite H.
Qed.


Lemma spec_count_app (P : TrialResult number -> bool)
    (l1 l2 : list (TrialResult number)) :
  spec_count P (l1 ++ l2) = spec_count P l1 + spec_count P l2.
Proof.
  induction l1 as [|r l1 IH]; cbn [app spec_count]; [reflexivity|].
  destruct (P r); lia.
Qed.

Lemma none_selected_count (P : TrialResult number -> bool)
    (rs : list (TrialResult number)) :
  Forall (fun r => P r = false) rs -> spec_count P rs = 0.
Proof.
  induction 1 as [|r rs Hr _ IH]; cbn [spec_count]; [reflexivity|].
  now rewrite Hr.
Qed.





(** X22: summarising mock results in which every draw exceeds the error
    rate gives means inside the rounded variance bands: the congruent mean
    between the rounded [congruentMean - congruentVariance] and
    [congruentMean + congruentVariance], the incongruent mean likewise. *)
Theorem mock_summary_within_variance (rand : nat -> Qc) (sid : string)
    (o : TestHelpers.Options.t) :
  unit_draws rand ->
  (forall k, (mock_errorRate o < rand k)%Qc) ->
  (0 <= mock_congruentVariance o)%Qc -> (0 <= mock_incongruentVariance o)%Qc ->
  mock_trialsPerCondition o <> 0 ->
  exists c i : Qc,
    congruentAvg (calculateSummary (TestHelpers.generateMockResults rand sid o))
    = Num c
    /\ incongruentAvg
         (calculateSummary (TestHelpers.generateMockResults rand sid o))
       = Num i
    /\ (Qc_of_Z (Math_round (mock_congruentMean o - mock_congruentVariance o))
        <= c)%Qc
    /\ (c <= Qc_of_Z (Math_round (mock_congruentMean o + mock_congruentVariance o)))%Qc
    /\ (Qc_of_Z (Math_round (mock_incongruentMean o - mock_incongruentVariance o))
        <= i)%Qc
    /\ (i <= Qc_of_Z (Math_round (mock_incongruentMean o
                                   + mock_incongruentVariance o)))%Qc.
Proof.
  intros Hu Hgt Hcv Hiv Hn.
  pose proof (mock_within_band rand sid o Hu Hcv Hiv) as Hband.
  set (rs := TestHelpers.generateMockResults rand sid o) in *.
  assert (F : finite_times rs).
  { unfold finite_times. eapply Forall_impl; [exact Hband|].
    intros r (z & -> & _). exact I. }
  destruct (summary_finite rs F) as (Ec & Ei & _).
  assert (Hcount : spec_count congruent_correct rs = mock_trialsPerCondition o
                   /\ spec_count incongruent_correct rs
                      = mock_trialsPerCondition o).
  { subst rs. rewrite mock_results_unfold, !spec_count_app.
    rewrite (all_selected_count congruent_correct (map _ _)).
    2:{ apply Forall_forall. intros r Hr.
        apply list_elem_of_In, in_map_iff in Hr. destruct Hr as (j & <- & _).
        unfold congruent_correct. cbn. apply gt_true, Hgt. }
    rewrite (none_selected_count congruent_correct (map _ _)).
    2:{ apply Forall_forall. intros r Hr.
        apply list_elem_of_In, in_map_iff in Hr. now destruct Hr as (j & <- & _). }
    rewrite (none_selected_count incongruent_correct (map _ _)).
    2:{ apply Forall_forall. intros r Hr.
        apply list_elem_of_In, in_map_iff in Hr. now destruct Hr as (j & <- & _). }
    rewrite (all_selected_count incongruent_correct (map _ _)).
    2:{ apply Forall_forall. intros r Hr.
        apply list_elem_of_In, in_map_iff in Hr. destruct Hr as (j & <- & _).
        unfold incongruent_correct. cbn. apply gt_true, Hgt. }
    rewrite !length_map, !length_seq. lia. }
  destruct Hcount as [Hcc Hic].
  destruct (spec_mean_bounds congruent_correct rs
              (Qc_of_Z (Math_round (mock_congruentMean o - mock_congruentVariance o)))
              (Qc_of_Z (Math_round (mock_congruentMean o + mock_congruentVariance o))))
    as [Hc1 Hc2]; [|now rewrite Hcc|].
  { eapply Forall_impl; [exact Hband|]. intros r (z & -> & Hz) Hp.
    unfold congruent_correct in Hp. apply andb_prop in Hp as [Hp _].
    rewrite Hp in Hz.
    cbn [finite_part number_of_Z].
    split; apply (proj1 (Z2Qc_inj_le _ _)); lia. }
  destruct (spec_mean_bounds incongruent_correct rs
              (Qc_of_Z (Math_round (mock_incongruentMean o
                                    - mock_incongruentVariance o)))
              (Qc_of_Z (Math_round (mock_incongruentMean o
                                    + mock_incongruentVariance o))))
    as [Hi1 Hi2]; [|now rewrite Hic|].
  { eapply Forall_impl; [exact Hband|]. intros r (z & -> & Hz) Hp.
    unfold incongruent_correct in Hp. apply andb_prop in Hp as [Hp _].
    apply negb_true_iff in Hp. rewrite Hp in Hz.
    cbn [finite_part number_of_Z].
    split; apply (proj1 (Z2Qc_inj_le _ _)); lia. }
  do 2 eexists. split; [exact Ec|]. split; [exact Ei|]. repeat split; assumption.
Qed.

Lemma mock_summary_within_variance_witness :
  exists c i : Qc,
    congruentAvg
      (calculateSummary
         (TestHelpers.generateMockResults (fun _ => Q2Qc (1 # 2)) "s"
            TestHelpers.Options.empty)) = Num c
    /\ incongruentAvg
         (calculateSummary
            (TestHelpers.generateMockResults (fun _ => Q2Qc (1 # 2)) "s"
               TestHelpers.Options.empty)) = Num i
    /\ (Qc_of_Z 450 <= c)%Qc /\ (i <= Qc_of_Z 730)%Qc.
Proof.
  destruct (mock_summary_within_variance (fun _ => Q2Qc (1 # 2)) "s"
              TestHelpers.Options.empty)
    as (c & i & Hc & Hi & Hlo & _ & _ & Hhi).
  - apply half_unit_draws.
  - intros k. unfold Qclt. vm_compute. reflexivity.
  - unfold Qcle. vm_compute. discriminate.
  - unfold Qcle. vm_compute. discriminate.
  - discriminate.
  - exists c, i. repeat split; assumption.
Defined.

(** ** Reading the cards *)

Lemma strip_app (a b : string) :
  strip (String.append a b) = String.append (strip a) (strip b).
Proof.
  induction a as [|c a IH]; [reflexivity|].
  change (strip (String c (String.append a b))
          = String.append (strip (String c a)) (strip b)).
  cbn [strip]. rewrite IH. now destruct (_ || _).
Qed.

Lemma uint_digits (d : Decimal.uint) :
  strip (NilEmpty.string_of_uint d) = NilEmpty.string_of_uint d
  /\ digits_prefix (NilEmpty.string_of_uint d) = NilEmpty.string_of_uint d
  /\ forall acc,
       digitsValue (NilEmpty.string_of_uint d) acc = Nat.of_uint_acc d acc.
Proof.
  induction d as [|d [IH1 [IH2 IH3]]|d [IH1 [IH2 IH3]]|d [IH1 [IH2 IH3]]
                 |d [IH1 [IH2 IH3]]|d [IH1 [IH2 IH3]]|d [IH1 [IH2 IH3]]
                 |d [IH1 [IH2 IH3]]|d [IH1 [IH2 IH3]]|d [IH1 [IH2 IH3]]
                 |d [IH1 [IH2 IH3]]];
    cbn [NilEmpty.string_of_uint strip digits_prefix digitsValue
         Nat.of_uint_acc].
  1: repeat split.
  all: split; [rewrite IH1; reflexivity|];
    split; [rewrite IH2; reflexivity|];
    intros acc; rewrite IH3, Nat.tail_mul_spec; f_equal;
    change (digit _) with 0 || change (digit _) with 1
    || change (digit _) with 2 || change (digit _) with 3
    || change (digit _) with 4 || change (digit _) with 5
    || change (digit _) with 6 || change (digit _) with 7
    || change (digit _) with 8 || change (digit _) with 9; lia.
Qed.

Lemma showNat_digits (n : nat) :
  strip (showNat n) = showNat n
  /\ digits_prefix (showNat n) = showNat n
  /\ digitsValue (showNat n) 0 = n.
Proof.
  unfold showNat. destruct (uint_digits (Nat.to_uint n)) as (H1 & H2 & H3).
  repeat split; [exact H1|exact H2|].
  rewrite H3. apply DecimalNat.Unsigned.of_to.
Qed.

Lemma showNat_first (n : nat) :
  exists c s, showNat n = String c s /\ is_digit c = true.
Proof.
  destruct (showNat_digits n) as (_ & H2 & H3).
  destruct (showNat n) as [|c s] eqn:E.
  - cbn in H3. subst n. discriminate E.
  - exists c, s. split; [reflexivity|]. cbn [digits_prefix] in H2.
    destruct (is_digit c); [reflexivity|discriminate].
Qed.

Lemma digit_not_sign (c : ascii) :
  is_digit c = true -> c <> "-"%char /\ c <> "+"%char.
Proof. intros H. split; intros ->; discriminate. Qed.

Lemma parseInt10_showInt (z : Z) : parseInt10 (showInt z) = number_of_Z z.
Proof.
  unfold showInt. destruct (z <? 0)%Z eqn:Hz.
  - apply Z.ltb_lt in Hz. unfold parseInt10. cbn [fst snd].
    destruct (showNat_digits (Z.to_nat (- z))) as (_ & H2 & H3).
    destruct (showNat_first (Z.to_nat (- z))) as (c & s & E & _).
    rewrite H2. rewrite E in *. rewrite H3. f_equal. lia.
  - apply Z.ltb_ge in Hz. unfold parseInt10.
    destruct (showNat_digits (Z.to_nat z)) as (_ & H2 & H3).
    destruct (showNat_first (Z.to_nat z)) as (c & s & E & Hc).
    destruct (digit_not_sign c Hc) as [Hm Hp].
    rewrite E in *.
    assert (Hs : match String c s with
                 | String "-" rest => (true, rest)
                 | String "+" rest => (false, rest)
                 | _ => (false, String c s)
                 end = (false, String c s)).
    { destruct c as [[] [] [] [] [] [] [] []]; try reflexivity;
        exfalso; [now apply Hm|now apply Hp]. }
    rewrite Hs. cbn [fst snd]. rewrite H2, H3. f_equal. lia.
Qed.

Lemma strip_showInt (z : Z) : strip (showInt z) = showInt z.
Proof.
  unfold showInt. destruct (z <? 0)%Z.
  - cbn [strip]. change (is_digit "-" || Ascii.eqb "-" "-") with true.
    cbv iota. f_equal. apply showNat_digits.
  - apply showNat_digits.
Qed.

Lemma showInt_first (z : Z) : exists c s, showInt z = String c s.
Proof.
  unfold showInt. destruct (z <? 0)%Z; [eauto|].
  destruct (showNat_first (Z.to_nat z)) as (c & s & E & _). eauto.
Qed.

Lemma getDisplayedStat_showInt (z : Z) (prefix suffix : string) :
  strip prefix = "" -> strip suffix = "" ->
  getDisplayedStat (Some (String.append prefix (String.append (showInt z) suffix)))
  = number_of_Z z.
Proof.
  intros Hp Hs. unfold getDisplayedStat. cbn [fmap option_fmap option_map].
  rewrite !strip_app, Hp, Hs, strip_showInt.
  assert (E : String.append (showInt z) "" = showInt z).
  { generalize (showInt z). induction s as [|c s IH]; [reflexivity|].
    change (String c (String.append s "") = String c s). now rewrite IH. }
  rewrite E. change (String.append "" (showInt z)) with (showInt z).
  destruct (showInt_first z) as (c & s & E').
  rewrite E'. rewrite <- E'. apply parseInt10_showInt.
Qed.

(** X23: [getDisplayedStat] reads a card back exactly: for a finite value
    shown as [Math.round] of it (below [10^21] in size, where the text is
    plain decimal), between any texts free of digits and
    minus signs (such as the [+], [ms] and [%] of the cards), it returns
    the rounded value, negative ones included; a text with no digit and no
    minus sign, such as [NaN%], and a missing text read as 0. *)
Theorem getDisplayedStat_reads_card (q : Qc) (prefix suffix : string) :
  (Z.abs (Math_round q) < 10 ^ 21)%Z ->
  strip prefix = "" -> strip suffix = "" ->
  getDisplayedStat
    (Some (String.append prefix (String.append (roundedText (Num q)) suffix)))
  = number_round (Num q)
  /\ getDisplayedStat
       (Some (String.append prefix (String.append (roundedText NaN) suffix)))
     = number_of_Z 0
  /\ getDisplayedStat None = number_of_Z 0.
Proof.
  intros _ Hp Hs. split; [now apply getDisplayedStat_showInt|].
  split; [|reflexivity].
  unfold getDisplayedStat. cbn [fmap option_fmap option_map].
  rewrite !strip_app, Hp, Hs. reflexivity.
Qed.

Lemma getDisplayedStat_reads_card_witness :
  getDisplayedStat (Some "+-100ms") = number_of_Z (-100).
Proof.
  refine (eq_trans _ (proj1 (getDisplayedStat_reads_card (Qc_of_Z (-100))
                               "+" "ms" _ eq_refl eq_refl))).
  - reflexivity.
  - vm_compute. reflexivity.
Defined.

(** X24: the accuracy assertion of the tests holds for every non-empty
    result list: what [getDisplayedStat] reads off the accuracy card is
    what [calculateExpectedStats] expects. *)
Theorem displayed_accuracy_is_expected (rs : list (TrialResult number)) :
  rs <> [] ->
  getDisplayedStat (Some (accuracyText (calculateSummary rs)))
  = TestHelpers.accuracy (TestHelpers.calculateExpectedStats rs).
Proof.
  intros Hne. destruct (accuracy_range rs Hne) as (q & Hq & _).
  unfold accuracyText.
  change (TestHelpers.accuracy (TestHelpers.calculateExpectedStats rs))
    with (number_round (accuracy (calculateSummary rs))).
  rewrite Hq.
  apply (getDisplayedStat_showInt (Math_round q) "" "%"); reflexivity.
Qed.

Lemma displayed_accuracy_is_expected_witness :
  getDisplayedStat
    (Some (accuracyText
             (calculateSummary
                [result_of true true (number_of_Z 450);
                 result_of false false (number_of_Z 700);
                 result_of false true (number_of_Z 610)])))
  = TestHelpers.accuracy
      (TestHelpers.calculateExpectedStats
         [result_of true true (number_of_Z 450);
          result_of false false (number_of_Z 700);
          result_of false true (number_of_Z 610)]).
Proof. apply displayed_accuracy_is_expected. discriminate. Defined.

(** On the empty list the page shows [NaN%], which reads as 0, while the
    helper expects [NaN]. *)
Example displayed_accuracy_of_no_results :
  accuracyText (calculateSummary []) = "NaN%"
  /\ getDisplayedStat (Some (accuracyText (calculateSummary []))) = number_of_Z 0
  /\ TestHelpers.accuracy (TestHelpers.calculateExpectedStats []) = NaN.
Proof. repeat split. Qed.
